(** * SSE transport for JSON-RPC: server half, client half, message handling

    A shallow embedding of [src/server-sse.ts], [src/client-sse.ts] and
    [src/transport.ts].

    The two classes are stateful objects driven by calls ([start], [send],
    [close], [handlePostMessage]) and by events of their collaborators (the
    HTTP response, the request body stream, the [EventSource]).  Every
    method and every listener is embedded as a computation in a small monad
    [Js] that threads the object's fields, records the calls made on the
    collaborators and on the three observers ([onclose], [onerror],
    [onmessage]) in a trace, and completes normally or by a thrown error.

    For a method declared [async] the completion is the settlement of the
    promise it returns: [Normal] is "resolved", [Throw] is "rejected".  None
    of the server's methods awaits anything, so their bodies run to the end
    inside the call; a caller that does not await the promise never sees
    the throw ([unawaited]).

    Observers are application code.  They are modelled by their completion
    (they return or they throw); calls they make back into the transport are
    outside this development.

    The runtime (JSON, URLs, [fetch], the response's [writeHead]) and the
    message schema of [types.ts] are parameters ([Runtime]); module [Sample]
    gives one concrete runtime on which the transports are run. *)

From Stdlib Require Import String Ascii List ZArith Bool Lia.
From Stdlib Require Import DecimalString Decimal.
Import ListNotations.
Open Scope string_scope.
Open Scope list_scope.

Set Implicit Arguments.
Set Warnings "-register-all".

(** ** JavaScript errors and completions *)

Inductive JsError : Type :=
| MkError (message : string)
    (* [new Error(message)] *)
| SseError (code : option Z) (message : option string)
    (* [new SseError(event.code, event.message, event)], client-sse.ts *)
| Foreign (name message : string).
    (* raised by the runtime ([SyntaxError], [TypeError], a schema error,
       [AbortError], ...) or by an observer *)

(** The template literal [`${x}`] on a [string | undefined]. *)
Definition show_undefined (x : option string) : string :=
  match x with
  | Some s => s
  | None => "undefined"
  end.

Definition error_name (e : JsError) : string :=
  match e with
  | MkError _ => "Error"
  | SseError _ _ => "Error"
  | Foreign n _ => n
  end.

Definition error_message (e : JsError) : string :=
  match e with
  | MkError m => m
  | SseError _ m => "SSE error: " ++ show_undefined m
  | Foreign _ m => m
  end.

Definition is_empty (s : string) : bool :=
  match s with
  | EmptyString => true
  | String _ _ => false
  end.

(** [Error.prototype.toString], which [`${error}`] calls. *)
Definition error_toString (e : JsError) : string :=
  let n := error_name e in
  let m := error_message e in
  if is_empty n then m
  else if is_empty m then n
  else n ++ ": " ++ m.

Inductive Completion (A : Type) : Type :=
| Normal (a : A)
| Throw (e : JsError).

Arguments Normal {A} a.
Arguments Throw {A} e.

Definition throws {A} (c : Completion A) : bool :=
  match c with
  | Normal _ => false
  | Throw _ => true
  end.

Definition defined {A} (x : option A) : bool :=
  match x with
  | Some _ => true
  | None => false
  end.

(** ** Strings *)

Definition LF : string := String (ascii_of_nat 10) EmptyString.

(** [hay.includes(needle)] *)
Definition includes (hay needle : string) : bool :=
  match index 0 needle hay with
  | Some _ => true
  | None => false
  end.

(** [`${n}`] on an integer. *)
Definition show_Z (n : Z) : string :=
  NilZero.string_of_int (Z.to_int n).

(** ** Collaborators *)

(** The [ServerResponse] of the GET request that carries the event stream.
    The server keeps it in [res] and, once started, also in [_sseResponse];
    both fields name the same object. *)
Record ServerResponse : Type := {
  headersSent : bool;
  writableEnded : bool;
  closeListeners : nat          (* listeners registered with [on("close")] *)
}.

(** The [IncomingMessage] of a POST: its content-type header and the chunks
    its [data] events deliver before [end]. *)
Record IncomingMessage : Type := {
  content_type : option string;
  chunks : list string
}.

(** A [Response] of [fetch]: [text] is [None] when reading the body fails. *)
Record Response : Type := {
  ok : bool;
  status : Z;
  text : option string
}.

(** The [init] object handed to [fetch]. *)
Record RequestInit : Type := {
  method : string;
  headers : list (string * string);
  body : string;
  signal : option bool          (* the abort signal and whether it is aborted *)
}.

(** What the transports need of the JavaScript runtime and of [types.ts].
    Nothing is assumed of these operations: the theorems hold for every
    runtime. *)
Class Runtime : Type := {
  JsValue : Type;
  JSON_parse : string -> Completion JsValue;
  JSONRPCMessage : Type;
  JSONRPCMessageSchema_parse : JsValue -> Completion JSONRPCMessage;
  JSON_stringify : JSONRPCMessage -> string;
  URL : Type;
  URL_new : string -> URL -> Completion URL;
  origin : URL -> string;
  href : URL -> string;
  encodeURI : string -> string;
  res_writeHead : ServerResponse -> Z -> Completion unit;
  fetch : URL -> RequestInit -> Completion Response
}.

(** ** Traces *)

Section Transport.

Context {R : Runtime}.

Inductive Effect : Type :=
(* the observers *)
| CbClose
| CbError (e : JsError)
| CbMessage (m : JSONRPCMessage)
(* the event-stream response of the server *)
| SseWriteHead (code : Z) (hdrs : list (string * string))
| SseWrite (chunk : string)
| SseOnClose
| SseEnd
(* the response of a POST *)
| ResWriteHead (code : Z)
| ResEnd (data : string)
(* the client's collaborators *)
| EsNew (url : string)
| EsClose
| Abort
| Fetch (endpoint : URL) (init : RequestInit)
| Resolve
| Reject (e : JsError).

(** ** The monad of method bodies *)

Definition Js (S A : Type) : Type := S -> S * list Effect * Completion A.

Definition ret {S A} (a : A) : Js S A :=
  fun s => (s, [], Normal a).

Definition bind {S A B} (m : Js S A) (k : A -> Js S B) : Js S B :=
  fun s =>
    match m s with
    | (s1, t1, Normal a) =>
        match k a s1 with
        | (s2, t2, c) => (s2, t1 ++ t2, c)
        end
    | (s1, t1, Throw e) => (s1, t1, Throw e)
    end.

Definition throw {S A} (e : JsError) : Js S A :=
  fun s => (s, [], Throw e).

Definition emit {S} (x : Effect) : Js S unit :=
  fun s => (s, [x], Normal tt).

Definition get {S} : Js S S :=
  fun s => (s, [], Normal s).

Definition modify {S} (f : S -> S) : Js S unit :=
  fun s => (f s, [], Normal tt).

Definition lift {S A} (c : Completion A) : Js S A :=
  fun s => (s, [], c).

(** [try { m } catch (error) { h error }] *)
Definition try_catch {S A} (m : Js S A) (h : JsError -> Js S A) : Js S A :=
  fun s =>
    match m s with
    | (s1, t1, Normal a) => (s1, t1, Normal a)
    | (s1, t1, Throw e) =>
        match h e s1 with
        | (s2, t2, c) => (s2, t1 ++ t2, c)
        end
    end.

(** Calling an [async] function without awaiting it: the body runs, a throw
    inside settles the returned promise and does not reach the caller. *)
Definition unawaited {S A} (m : Js S A) : Js S (Completion A) :=
  fun s =>
    match m s with
    | (s1, t1, c) => (s1, t1, Normal c)
    end.

(** [cb?.(x)]: nothing when the observer is unassigned. *)
Definition call_opt {S X} (cb : option (X -> Completion unit))
    (x : X) (e : Effect) : Js S unit :=
  match cb with
  | None => ret tt
  | Some f => bind (emit e) (fun _ => lift (f x))
  end.

Definition trace_of {S A} (r : S * list Effect * Completion A) : list Effect :=
  snd (fst r).

Definition state_of {S A} (r : S * list Effect * Completion A) : S :=
  fst (fst r).

Definition completion_of {S A} (r : S * list Effect * Completion A)
  : Completion A :=
  snd r.

(** [interface Transport], transport.ts: what both halves implement. *)
Class Transport (T : Type) : Type := {
  transport_start : Js T unit;
  transport_send : JSONRPCMessage -> Js T unit;
  transport_close : Js T unit;
  transport_onclose : T -> option (unit -> Completion unit);
  transport_onerror : T -> option (JsError -> Completion unit);
  transport_onmessage : T -> option (JSONRPCMessage -> Completion unit)
}.

(** Counting the calls of [onclose] in a trace. *)
Definition is_CbClose (x : Effect) : bool :=
  match x with
  | CbClose => true
  | _ => false
  end.

Definition count_onclose (t : list Effect) : nat :=
  length (filter is_CbClose t).

End Transport.

Declare Scope js_scope.
Delimit Scope js_scope with js.
Notation "x <- m ;; k" := (bind m (fun x => k))
  (at level 61, m at next level, right associativity) : js_scope.
Notation "m ;; k" := (bind m (fun _ => k))
  (at level 61, right associativity) : js_scope.

(** ** The server half: [class SseServer], server-sse.ts *)

Module Server.
Section Server.

Context {R : Runtime}.
Local Open Scope js_scope.

Record SseServer : Type := {
  _sseResponse : bool;          (* defined (it is then [res]) or [undefined] *)
  _sessionId : string;
  _endpoint : string;
  res : ServerResponse;
  onclose : option (unit -> Completion unit);
  onerror : option (JsError -> Completion unit);
  onmessage : option (JSONRPCMessage -> Completion unit)
}.

(** [new SseServer(_endpoint, res)]; [uuid] is what [randomUUID()] returns. *)
Definition new_SseServer (endpoint : string) (r : ServerResponse)
    (uuid : string) : SseServer :=
  {| _sseResponse := false; _sessionId := uuid; _endpoint := endpoint;
     res := r; onclose := None; onerror := None; onmessage := None |}.

Definition set_sseResponse (b : bool) (s : SseServer) : SseServer :=
  {| _sseResponse := b; _sessionId := _sessionId s; _endpoint := _endpoint s;
     res := res s; onclose := onclose s; onerror := onerror s;
     onmessage := onmessage s |}.

Definition set_res (r : ServerResponse) (s : SseServer) : SseServer :=
  {| _sseResponse := _sseResponse s; _sessionId := _sessionId s;
     _endpoint := _endpoint s; res := r; onclose := onclose s;
     onerror := onerror s; onmessage := onmessage s |}.

Definition with_observers
    (c : option (unit -> Completion unit))
    (e : option (JsError -> Completion unit))
    (m : option (JSONRPCMessage -> Completion unit))
    (s : SseServer) : SseServer :=
  {| _sseResponse := _sseResponse s; _sessionId := _sessionId s;
     _endpoint := _endpoint s; res := res s; onclose := c;
     onerror := e; onmessage := m |}.

Definition mark_headersSent (r : ServerResponse) : ServerResponse :=
  {| headersSent := true; writableEnded := writableEnded r;
     closeListeners := closeListeners r |}.

Definition mark_ended (r : ServerResponse) : ServerResponse :=
  {| headersSent := headersSent r; writableEnded := true;
     closeListeners := closeListeners r |}.

Definition add_closeListener (r : ServerResponse) : ServerResponse :=
  {| headersSent := headersSent r; writableEnded := writableEnded r;
     closeListeners := S (closeListeners r) |}.

Definition sse_headers : list (string * string) :=
  [("Content-Type", "text/event-stream");
   ("Cache-Control", "no-cache");
   ("Connection", "keep-alive")].

Definition endpoint_frame (s : SseServer) : string :=
  "event: endpoint" ++ LF ++ "data: " ++ encodeURI (_endpoint s)
    ++ "?sessionId=" ++ _sessionId s ++ LF ++ LF.

Definition message_frame (message : JSONRPCMessage) : string :=
  "event: message" ++ LF ++ "data: " ++ JSON_stringify message ++ LF ++ LF.

Definition already_started : JsError := MkError "SSE server already started!".
Definition not_connected : JsError := MkError "Not connected".
Definition not_established : string := "SSE connection not established".

(** [async start()] *)
Definition start : Js SseServer unit :=
  s <- get ;;
  (if _sseResponse s then throw already_started else ret tt) ;;
  lift (res_writeHead (res s) 200) ;;
  emit (SseWriteHead 200 sse_headers) ;;
  modify (fun s => set_res (mark_headersSent (res s)) s) ;;
  emit (SseWrite (endpoint_frame s)) ;;
  modify (set_sseResponse true) ;;
  emit SseOnClose ;;
  modify (fun s => set_res (add_closeListener (res s)) s).

(** The listener [start] registers: [() => { this._sseResponse = undefined;
    this.onclose?.(); }] *)
Definition on_res_close : Js SseServer unit :=
  modify (set_sseResponse false) ;;
  s <- get ;;
  call_opt (onclose s) tt CbClose.

Fixpoint run_listeners (n : nat) : Js SseServer unit :=
  match n with
  | O => ret tt
  | S k => on_res_close ;; run_listeners k
  end.

(** The response emits [close] (peer disconnect, network failure, or the end
    of the response): every registered listener runs, in order; a listener
    that throws stops the emission. *)
Definition res_emit_close : Js SseServer unit :=
  s <- get ;;
  run_listeners (closeListeners (res s)).

(** [async handleMessage(message: unknown)] *)
Definition handleMessage (message : JsValue) : Js SseServer unit :=
  s <- get ;;
  parsedMessage <-
    try_catch (lift (JSONRPCMessageSchema_parse message))
      (fun error => call_opt (onerror s) error (CbError error) ;;
                    throw error) ;;
  call_opt (onmessage s) parsedMessage (CbMessage parsedMessage).

(** [body += chunk.toString()] over the [data] events *)
Definition read_body (req : IncomingMessage) : string :=
  fold_left (fun b chunk => (b ++ chunk)%string) (chunks req) "".

(** [!contentType || !contentType.includes("application/json")] *)
Definition unsupported (contentType : option string) : bool :=
  match contentType with
  | None => true
  | Some c => is_empty c || negb (includes c "application/json")
  end.

Definition check_content_type (req : IncomingMessage) : Js SseServer unit :=
  if unsupported (content_type req)
  then throw (MkError ("Unsupported content-type: "
                       ++ show_undefined (content_type req)))
  else ret tt.

(** The listener [handlePostMessage] registers on the request's [end];
    [handleMessage] is called and its promise dropped. *)
Definition on_req_end (req : IncomingMessage) : Js SseServer unit :=
  s <- get ;;
  try_catch
    (check_content_type req ;;
     parsedMessage <- lift (JSON_parse (read_body req)) ;;
     unawaited (handleMessage parsedMessage) ;;
     emit (ResWriteHead 202) ;;
     emit (ResEnd "Accepted"))
    (fun error =>
       emit (ResWriteHead 400) ;;
       emit (ResEnd ("Invalid message: " ++ error_toString error)) ;;
       call_opt (onerror s) error (CbError error)).

(** [async handlePostMessage(req, res)], up to its return: the guard and
    the registration of the two listeners on [req]. *)
Definition handlePostMessage (req : IncomingMessage) : Js SseServer unit :=
  s <- get ;;
  if _sseResponse s then ret tt
  else
    emit (ResWriteHead 500) ;;
    emit (ResEnd not_established) ;;
    throw (MkError not_established).

(** A POST handled to its end: [handlePostMessage], then the request's
    [data] events and its [end]. *)
Definition post (req : IncomingMessage) : Js SseServer unit :=
  handlePostMessage req ;;
  on_req_end req.

(** [async close()] *)
Definition close : Js SseServer unit :=
  s <- get ;;
  (if _sseResponse s
   then emit SseEnd ;; modify (fun s => set_res (mark_ended (res s)) s)
   else ret tt) ;;
  modify (set_sseResponse false) ;;
  call_opt (onclose s) tt CbClose.

(** [async send(message)] *)
Definition send (message : JSONRPCMessage) : Js SseServer unit :=
  s <- get ;;
  (if _sseResponse s then ret tt else throw not_connected) ;;
  emit (SseWrite (message_frame message)).

(** [get sessionId()] *)
Definition sessionId (s : SseServer) : string := _sessionId s.

(** [class SseServer implements Transport] *)
#[global] Instance transport : Transport SseServer := {|
  transport_start := start;
  transport_send := send;
  transport_close := close;
  transport_onclose := onclose;
  transport_onerror := onerror;
  transport_onmessage := onmessage
|}.

(** What can happen to a server, one call or event at a time. *)
Inductive Action : Type :=
| Start
| Close
| Send (message : JSONRPCMessage)
| Post (req : IncomingMessage)
| Disconnect.

Definition perform (a : Action) : Js SseServer unit :=
  match a with
  | Start => start
  | Close => close
  | Send m => send m
  | Post req => post req
  | Disconnect => res_emit_close
  end.

(** A history: each action runs on the state its predecessors left; a call
    that is rejected or a listener that throws does not stop the ones after
    it.  The result is the final state and the whole trace. *)
Fixpoint run (acts : list Action) (s : SseServer)
  : SseServer * list Effect :=
  match acts with
  | [] => (s, [])
  | a :: rest =>
      match perform a s with
      | (s1, t1, _) =>
          match run rest s1 with
          | (s2, t2) => (s2, t1 ++ t2)
          end
      end
  end.

End Server.
End Server.

(** ** The client half: [class SseClient], client-sse.ts *)

Module Client.
Section Client.

Context {R : Runtime}.
Local Open Scope js_scope.

(** The promise [start] returns, as its executor's [resolve] and [reject]
    see it: the first of them settles it, later calls change nothing. *)
Inductive Settlement : Type :=
| Pending
| Resolved
| Rejected (e : JsError).

Record SseClient : Type := {
  _eventSource : option bool;     (* the EventSource, and whether it is closed *)
  _endpoint : option URL;
  _abortController : option bool; (* the controller, and whether it has aborted *)
  _url : URL;
  _requestInit : option RequestInit;
  started : option Settlement;    (* the promise of [start], once there is one *)
  onclose : option (unit -> Completion unit);
  onerror : option (JsError -> Completion unit);
  onmessage : option (JSONRPCMessage -> Completion unit)
}.

(** [new SseClient(url, opts)] *)
Definition new_SseClient (url : URL) (requestInit : option RequestInit)
  : SseClient :=
  {| _eventSource := None; _endpoint := None; _abortController := None;
     _url := url; _requestInit := requestInit; started := None;
     onclose := None; onerror := None; onmessage := None |}.

Definition set_eventSource (v : option bool) (s : SseClient) : SseClient :=
  {| _eventSource := v; _endpoint := _endpoint s;
     _abortController := _abortController s; _url := _url s;
     _requestInit := _requestInit s; started := started s;
     onclose := onclose s; onerror := onerror s; onmessage := onmessage s |}.

Definition set_endpoint (v : option URL) (s : SseClient) : SseClient :=
  {| _eventSource := _eventSource s; _endpoint := v;
     _abortController := _abortController s; _url := _url s;
     _requestInit := _requestInit s; started := started s;
     onclose := onclose s; onerror := onerror s; onmessage := onmessage s |}.

Definition set_abortController (v : option bool) (s : SseClient) : SseClient :=
  {| _eventSource := _eventSource s; _endpoint := _endpoint s;
     _abortController := v; _url := _url s;
     _requestInit := _requestInit s; started := started s;
     onclose := onclose s; onerror := onerror s; onmessage := onmessage s |}.

Definition set_started (v : option Settlement) (s : SseClient) : SseClient :=
  {| _eventSource := _eventSource s; _endpoint := _endpoint s;
     _abortController := _abortController s; _url := _url s;
     _requestInit := _requestInit s; started := v;
     onclose := onclose s; onerror := onerror s; onmessage := onmessage s |}.

Definition with_observers
    (c : option (unit -> Completion unit))
    (e : option (JsError -> Completion unit))
    (m : option (JSONRPCMessage -> Completion unit))
    (s : SseClient) : SseClient :=
  {| _eventSource := _eventSource s; _endpoint := _endpoint s;
     _abortController := _abortController s; _url := _url s;
     _requestInit := _requestInit s; started := started s;
     onclose := c; onerror := e; onmessage := m |}.

Definition already_started : JsError := MkError "SSE client already started!".
Definition not_connected : JsError := MkError "Not connected".

Definition origin_mismatch (endpoint : URL) : JsError :=
  MkError ("Endpoint origin does not match connection origin: "
           ++ origin endpoint).

Definition settle (v : Settlement) (s : SseClient) : SseClient :=
  match started s with
  | Some Pending => set_started (Some v) s
  | _ => s
  end.

(** [resolve()] and [reject(error)] of the executor in [start] *)
Definition resolve : Js SseClient unit :=
  emit Resolve ;; modify (settle Resolved).

Definition reject (error : JsError) : Js SseClient unit :=
  emit (Reject error) ;; modify (settle (Rejected error)).

(** [async start()], up to the return of the promise: the guard and the
    executor, which opens the stream and registers the three listeners
    below.  The promise itself is settled by the listeners. *)
Definition start : Js SseClient unit :=
  s <- get ;;
  (if defined (_eventSource s) then throw already_started else ret tt) ;;
  emit (EsNew (href (_url s))) ;;
  modify (set_eventSource (Some false)) ;;
  modify (set_abortController (Some false)) ;;
  modify (set_started (Some Pending)).

(** [async close()] *)
Definition close : Js SseClient unit :=
  s <- get ;;
  (if defined (_abortController s)
   then emit Abort ;; modify (set_abortController (Some true))
   else ret tt) ;;
  (if defined (_eventSource s)
   then emit EsClose ;; modify (set_eventSource (Some true))
   else ret tt) ;;
  call_opt (onclose s) tt CbClose.

(** [this._eventSource.onerror = (event) => ...] *)
Definition on_es_error (code : option Z) (message : option string)
  : Js SseClient unit :=
  s <- get ;;
  let error := SseError code message in
  reject error ;;
  call_opt (onerror s) error (CbError error).

(** The [catch] block of the [endpoint] listener.  [close] is called under
    [void]: its promise is dropped. *)
Definition on_endpoint_catch (s : SseClient) (error : JsError)
  : Js SseClient bool :=
  reject error ;;
  call_opt (onerror s) error (CbError error) ;;
  unawaited close ;;
  ret false.

(** The listener of the [endpoint] event; the boolean tells whether the
    [try] block ran to its end, in which case [resolve()] follows. *)
Definition on_endpoint (data : string) : Js SseClient unit :=
  s <- get ;;
  accepted <-
    try_catch
      (endpoint <- lift (URL_new data (_url s)) ;;
       modify (set_endpoint (Some endpoint)) ;;
       if negb (String.eqb (origin endpoint) (origin (_url s)))
       then throw (origin_mismatch endpoint)
       else ret true)
      (on_endpoint_catch s) ;;
  if (accepted : bool) then resolve else ret tt.

(** [this._eventSource.onmessage = (event) => ...] *)
Definition on_es_message (data : string) : Js SseClient unit :=
  s <- get ;;
  parsed <-
    try_catch
      (v <- lift (JSON_parse data) ;;
       message <- lift (JSONRPCMessageSchema_parse v) ;;
       ret (Some message))
      (fun error =>
         call_opt (onerror s) error (CbError error) ;;
         ret None) ;;
  match parsed with
  | Some message => call_opt (onmessage s) message (CbMessage message)
  | None => ret tt
  end.

(** [headers.set(name, value)]; names are kept in lower case, as [Headers]
    does. *)
Definition headers_set (name value : string) (h : list (string * string))
  : list (string * string) :=
  filter (fun kv => negb (String.eqb (fst kv) name)) h ++ [(name, value)].

Definition requestInit_headers (s : SseClient) : list (string * string) :=
  match _requestInit s with
  | Some init => headers init
  | None => []
  end.

Definition post_init (s : SseClient) (message : JSONRPCMessage)
  : RequestInit :=
  {| method := "POST";
     headers := headers_set "content-type" "application/json"
                  (requestInit_headers s);
     body := JSON_stringify message;
     signal := _abortController s |}.

(** [`${text}`] on a [string | null] *)
Definition show_null (x : option string) : string :=
  match x with
  | Some s => s
  | None => "null"
  end.

Definition post_failed (response : Response) : JsError :=
  MkError ("Error POSTing to endpoint (HTTP " ++ show_Z (status response)
           ++ "): " ++ show_null (text response)).

(** [async send(message)], with the [fetch] it awaits. *)
Definition send (message : JSONRPCMessage) : Js SseClient unit :=
  s <- get ;;
  match _endpoint s with
  | None => throw not_connected
  | Some endpoint =>
      try_catch
        (let init := post_init s message in
         emit (Fetch endpoint init) ;;
         response <- lift (fetch endpoint init) ;;
         if ok response then ret tt
         else throw (post_failed response))
        (fun error =>
           call_opt (onerror s) error (CbError error) ;;
           throw error)
  end.

(** [class SseClient implements Transport] *)
#[global] Instance transport : Transport SseClient := {|
  transport_start := start;
  transport_send := send;
  transport_close := close;
  transport_onclose := onclose;
  transport_onerror := onerror;
  transport_onmessage := onmessage
|}.

(** What can happen to a client, one call or event at a time.  The stream's
    events reach the listeners only once [start] has registered them. *)
Inductive Action : Type :=
| Start
| Close
| Send (message : JSONRPCMessage)
| EsError (code : option Z) (message : option string)
| EsEndpoint (data : string)
| EsMessage (data : string).

Definition listening (s : SseClient) (m : Js SseClient unit)
  : Js SseClient unit :=
  if defined (_eventSource s) then m else ret tt.

Definition perform (a : Action) : Js SseClient unit :=
  match a with
  | Start => start
  | Close => close
  | Send m => send m
  | EsError c m => s <- get ;; listening s (on_es_error c m)
  | EsEndpoint d => s <- get ;; listening s (on_endpoint d)
  | EsMessage d => s <- get ;; listening s (on_es_message d)
  end.

Fixpoint run (acts : list Action) (s : SseClient)
  : SseClient * list Effect :=
  match acts with
  | [] => (s, [])
  | a :: rest =>
      match perform a s with
      | (s1, t1, _) =>
          match run rest s1 with
          | (s2, t2) => (s2, t1 ++ t2)
          end
      end
  end.


End Client.
End Client.

(** ** States and traces the methods leave

    Closed forms of what [close], the listeners and a POST leave behind,
    read off the definitions above; the properties below are stated with
    them. *)

Section Descriptions.

Context {R : Runtime}.

(** The calls a transport makes on its observers of errors and of
    messages, when they are assigned. *)
Definition reported {X} (cb : option (X -> Completion unit)) (x : Effect)
  : list Effect :=
  if defined cb then [x] else [].

Definition rejected_post (s : Server.SseServer) (e : JsError) : list Effect :=
  [ResWriteHead 400; ResEnd ("Invalid message: " ++ error_toString e)]
  ++ reported (Server.onerror s) (CbError e).

Definition accepted_post : list Effect :=
  [ResWriteHead 202; ResEnd "Accepted"].

(** The fields [close] leaves behind, and what it records. *)
Definition server_closed (s : Server.SseServer) : Server.SseServer :=
  Server.set_sseResponse false
    (if Server._sseResponse s
     then Server.set_res (Server.mark_ended (Server.res s)) s
     else s).

Definition server_close_trace (s : Server.SseServer) : list Effect :=
  (if Server._sseResponse s then [SseEnd] else [])
  ++ (if defined (Server.onclose s) then [CbClose] else []).

Definition observer_completion {X} (cb : option (X -> Completion unit))
    (x : X) : Completion unit :=
  match cb with
  | Some f => f x
  | None => Normal tt
  end.

(** [close()] of a transport in state [t] calls [onclose] once, if it is
    assigned, and completes as that call does. *)
Definition closes_unguarded {T} `{Transport T} (t : T) : Prop :=
  count_onclose (trace_of (transport_close t))
  = (if defined (transport_onclose t) then 1 else 0)
  /\ completion_of (transport_close t)
     = observer_completion (transport_onclose t) tt.

(** A server that was started once: its observer of closing is [f] and one
    listener is registered on its response. *)
Definition started_once (f : unit -> Completion unit) (s : Server.SseServer)
  : Prop :=
  Server.onclose s = Some f /\ closeListeners (Server.res s) = 1.

Definition close_or_disconnect (a : Server.Action) : Prop :=
  a = Server.Close \/ a = Server.Disconnect.

(** The fields [close] leaves behind. *)
Definition closed (s : Client.SseClient) : Client.SseClient :=
  {| Client._eventSource := option_map (fun _ => true) (Client._eventSource s);
     Client._endpoint := Client._endpoint s;
     Client._abortController :=
       option_map (fun _ => true) (Client._abortController s);
     Client._url := Client._url s;
     Client._requestInit := Client._requestInit s;
     Client.started := Client.started s;
     Client.onclose := Client.onclose s;
     Client.onerror := Client.onerror s;
     Client.onmessage := Client.onmessage s |}.

Definition close_trace (s : Client.SseClient) : list Effect :=
  (if defined (Client._abortController s) then [Abort] else [])
  ++ (if defined (Client._eventSource s) then [EsClose] else [])
  ++ (if defined (Client.onclose s) then [CbClose] else []).

(** What the [catch] block of the [endpoint] listener leaves, from the
    state [s1] in which the error was thrown. *)
Definition handshake_failed (error : JsError) (s1 : Client.SseClient)
  : Client.SseClient * list Effect * Completion unit :=
  let s2 := Client.settle (Client.Rejected error) s1 in
  match Client.onerror s1 with
  | Some f =>
      match f error with
      | Normal _ =>
          (closed s2, [Reject error; CbError error] ++ close_trace s2,
           Normal tt)
      | Throw e => (s2, [Reject error; CbError error], Throw e)
      end
  | None => (closed s2, [Reject error] ++ close_trace s2, Normal tt)
  end.



End Descriptions.

Ltac js_unfold :=
  cbv beta iota zeta delta
    [bind ret throw emit get modify lift try_catch unawaited call_opt
     trace_of state_of completion_of fst snd app];
  cbn [Server._sseResponse Server._sessionId Server._endpoint Server.res
       Server.onclose Server.onerror Server.onmessage
       Server.set_sseResponse Server.set_res Server.with_observers
       Server.new_SseServer
       Client._eventSource Client._endpoint Client._abortController
       Client._url Client._requestInit Client.started
       Client.onclose Client.onerror Client.onmessage
       Client.set_eventSource Client.set_endpoint Client.set_abortController
       Client.set_started Client.with_observers Client.new_SseClient].

Ltac trace_norm :=
  cbn [app]; rewrite ?app_nil_r; cbn [app].

Ltac client_cases s :=
  destruct s as [es ep ac url ri st oc oe om];
  try destruct es; try destruct ac; try destruct oc as [oc|].

(** ** A concrete runtime

    One runtime to run the transports on: JSON values with integer
    numbers, the message schema, URLs given by their parts, a response
    object that refuses a second [writeHead] as Node's does, and a peer
    that answers POSTs the way the server of [test.ts] does. *)

Module Sample.

Local Open Scope string_scope.

Inductive Json : Type :=
| JNull
| JBool (b : bool)
| JNumber (n : Z)
| JString (s : string)
| JArray (items : list Json)
| JObject (fields : list (string * Json)).

Definition quote : string := String (ascii_of_nat 34) EmptyString.

(** [JSON.stringify] on these values; the strings in them hold no
    character that needs an escape. *)
Fixpoint stringify (v : Json) : string :=
  match v with
  | JNull => "null"
  | JBool true => "true"
  | JBool false => "false"
  | JNumber n => show_Z n
  | JString s => quote ++ s ++ quote
  | JArray items =>
      "[" ++ (fix go (l : list Json) : string :=
                match l with
                | [] => ""
                | [x] => stringify x
                | x :: rest => stringify x ++ "," ++ go rest
                end) items ++ "]"
  | JObject fields =>
      "{" ++ (fix go (l : list (string * Json)) : string :=
                match l with
                | [] => ""
                | [(k, x)] => quote ++ k ++ quote ++ ":" ++ stringify x
                | (k, x) :: rest =>
                    quote ++ k ++ quote ++ ":" ++ stringify x ++ "," ++ go rest
                end) fields ++ "}"
  end.

Fixpoint field (k : string) (fields : list (string * Json)) : option Json :=
  match fields with
  | [] => None
  | (k', v) :: rest => if String.eqb k k' then Some v else field k rest
  end.

Inductive RequestId : Type :=
| IdString (s : string)
| IdNumber (n : Z).

(** Modelled from the spec: the message type of [types.ts], which is not
    among the sources.  Section 3 gives the four shapes: request ([method]
    and [id]), notification ([method], no [id]), success response ([result]
    and [id]), error response ([error] with [code] and [message], and
    [id]). *)
Inductive Message : Type :=
| Request (id : RequestId) (method : string) (params : option Json)
| Notification (method : string) (params : option Json)
| Result (id : RequestId) (result : Json)
| ErrorResponse (id : RequestId) (code : Z) (message : string)
    (data : option Json).

Definition schema_error (what : string) : JsError := Foreign "ZodError" what.

Definition parse_id (fields : list (string * Json))
  : Completion (option RequestId) :=
  match field "id" fields with
  | None => Normal None
  | Some (JString s) => Normal (Some (IdString s))
  | Some (JNumber n) => Normal (Some (IdNumber n))
  | Some _ => Throw (schema_error "id: expected string or number")
  end.

Definition parse_error_object (id : RequestId) (e : Json)
  : Completion Message :=
  match e with
  | JObject ef =>
      match field "code" ef, field "message" ef with
      | Some (JNumber code), Some (JString message) =>
          Normal (ErrorResponse id code message (field "data" ef))
      | _, _ => Throw (schema_error "error: expected code and message")
      end
  | _ => Throw (schema_error "error: expected object")
  end.

(** Modelled from the spec: [JSONRPCMessageSchema.parse] of [types.ts],
    which is not among the sources.  Section 4.3: the protocol version must
    be the literal; exactly one of [method] (with neither [result] nor
    [error]), [result], [error] is present; [id] is a string, a number or
    absent; an [error] object has a numeric [code] and a string [message];
    any other shape is rejected. *)
Definition schema_parse (v : Json) : Completion Message :=
  match v with
  | JObject fields =>
      match field "jsonrpc" fields with
      | Some (JString version) =>
          if String.eqb version "2.0" then
            match parse_id fields with
            | Throw e => Throw e
            | Normal id =>
                match field "method" fields, field "result" fields,
                      field "error" fields, id with
                | Some (JString m), None, None, Some i =>
                    Normal (Request i m (field "params" fields))
                | Some (JString m), None, None, None =>
                    Normal (Notification m (field "params" fields))
                | None, Some r, None, Some i => Normal (Result i r)
                | None, None, Some e, Some i => parse_error_object i e
                | _, _, _, _ =>
                    Throw (schema_error "expected one of method, result, error")
                end
            end
          else Throw (schema_error "jsonrpc: expected 2.0")
      | _ => Throw (schema_error "jsonrpc: expected 2.0")
      end
  | _ => Throw (schema_error "expected object")
  end.

Definition json_of_id (i : RequestId) : Json :=
  match i with
  | IdString s => JString s
  | IdNumber n => JNumber n
  end.

Definition optional (k : string) (v : option Json) : list (string * Json) :=
  match v with
  | Some x => [(k, x)]
  | None => []
  end.

Definition json_of_message (m : Message) : Json :=
  match m with
  | Request i meth p =>
      JObject ([("jsonrpc", JString "2.0"); ("id", json_of_id i);
                ("method", JString meth)] ++ optional "params" p)%list
  | Notification meth p =>
      JObject ([("jsonrpc", JString "2.0"); ("method", JString meth)]
               ++ optional "params" p)%list
  | Result i r =>
      JObject [("jsonrpc", JString "2.0"); ("id", json_of_id i);
               ("result", r)]
  | ErrorResponse i c msg d =>
      JObject [("jsonrpc", JString "2.0"); ("id", json_of_id i);
               ("error", JObject ([("code", JNumber c);
                                   ("message", JString msg)]
                                  ++ optional "data" d)%list)]
  end.

(** The values whose texts [parse] knows. *)
Definition ping : Json :=
  JObject [("jsonrpc", JString "2.0"); ("method", JString "ping")].

Definition example_request : Json :=
  JObject [("jsonrpc", JString "2.0"); ("id", JNumber 1);
           ("method", JString "example.method");
           ("params", JObject [("data", JString "x")])].

Definition wrong_version : Json :=
  JObject [("jsonrpc", JString "1.0"); ("method", JString "ping")].

Definition missing_jsonrpc : Json :=
  JObject [("method", JString "ping")].

Definition result_and_error : Json :=
  JObject [("jsonrpc", JString "2.0"); ("id", JNumber 1);
           ("result", JNull);
           ("error", JObject [("code", JNumber 1); ("message", JString "e")])].

Definition boolean_id : Json :=
  JObject [("jsonrpc", JString "2.0"); ("id", JBool true);
           ("method", JString "ping")].

Definition corpus : list Json :=
  [ping; example_request; wrong_version; missing_jsonrpc; result_and_error;
   boolean_id].

(** [JSON.parse] on the texts of [corpus]; a text that is not JSON, such as
    [not_json], is a syntax error. *)
Definition parse (text : string) : Completion Json :=
  match find (fun v => String.eqb (stringify v) text) corpus with
  | Some v => Normal v
  | None => Throw (Foreign "SyntaxError" "Unexpected token")
  end.

Definition not_json : string := "{not json".

(** URLs by their parts; the origin is scheme, host and port. *)
Record Url : Type := {
  scheme : string;
  host : string;
  port : string;
  path : string
}.

Definition url_origin (u : Url) : string :=
  scheme u ++ "://" ++ host u
    ++ (if is_empty (port u) then "" else ":" ++ port u).

Definition url_href (u : Url) : string := url_origin u ++ path u.

Definition localhost_sse : Url :=
  {| scheme := "http"; host := "localhost"; port := "3000"; path := "/sse" |}.

Definition evil_message : Url :=
  {| scheme := "http"; host := "evil.example"; port := "";
     path := "/message" |}.

Definition absolute : list Url := [localhost_sse; evil_message].

(** [new URL(data, base)]: a path that starts with one [/] replaces the
    path of [base]; the text of a URL of [absolute] is that URL; no other
    text is used below. *)
Definition url_new (data : string) (base : Url) : Completion Url :=
  if prefix "/" data && negb (prefix "//" data) then
    Normal {| scheme := scheme base; host := host base; port := port base;
              path := data |}
  else
    match find (fun u => String.eqb (url_href u) data) absolute with
    | Some u => Normal u
    | None => Throw (Foreign "TypeError" "Invalid URL")
    end.

Definition hex_digit (n : nat) : ascii :=
  ascii_of_nat (if Nat.ltb n 10 then 48 + n else 55 + n).

Definition uri_kept (c : ascii) : bool :=
  let n := nat_of_ascii c in
  (Nat.leb 48 n && Nat.leb n 57) || (Nat.leb 65 n && Nat.leb n 90)
  || (Nat.leb 97 n && Nat.leb n 122)
  || includes ";,/?:@&=+$-_.!~*'()#" (String c EmptyString).

(** [encodeURI] on a string given by its UTF-8 bytes. *)
Fixpoint encode_uri (s : string) : string :=
  match s with
  | EmptyString => EmptyString
  | String c rest =>
      if uri_kept c then String c (encode_uri rest)
      else
        let n := nat_of_ascii c in
        String "%" (String (hex_digit (n / 16))
                      (String (hex_digit (n mod 16)) (encode_uri rest)))
  end.

(** [writeHead] of a Node response: it throws once the headers are sent. *)
Definition node_writeHead (r : ServerResponse) (code : Z) : Completion unit :=
  if headersSent r
  then Throw (Foreign "Error"
                "Cannot write headers after they are sent to the client")
  else Normal tt.

(** The peer: an aborted signal rejects the request; the session [gone] is
    unknown to the server, which answers 404; any other POST is accepted. *)
Definition peer_fetch (u : Url) (init : RequestInit) : Completion Response :=
  match signal init with
  | Some true => Throw (Foreign "AbortError" "This operation was aborted")
  | _ =>
      if String.eqb (path u) "/message?sessionId=gone"
      then Normal {| ok := false; status := 404;
                     text := Some "Session not found" |}
      else Normal {| ok := true; status := 202; text := Some "Accepted" |}
  end.

#[export] Instance runtime : Runtime := {|
  JsValue := Json;
  JSON_parse := parse;
  JSONRPCMessage := Message;
  JSONRPCMessageSchema_parse := schema_parse;
  JSON_stringify := fun m => stringify (json_of_message m);
  URL := Url;
  URL_new := url_new;
  origin := url_origin;
  href := url_href;
  encodeURI := encode_uri;
  res_writeHead := node_writeHead;
  fetch := peer_fetch
|}.

Definition fresh_response : ServerResponse :=
  {| headersSent := false; writableEnded := false; closeListeners := 0 |}.

Definition returns {X} : option (X -> Completion unit) :=
  Some (fun _ => Normal tt).

Definition fails {X} : option (X -> Completion unit) :=
  Some (fun _ => Throw (Foreign "Error" "observer failed")).

(** The server of [test.ts] for one connection, observers assigned. *)
Definition server : Server.SseServer :=
  Server.with_observers returns returns returns
    (Server.new_SseServer "/message" fresh_response "session-1").

(** The client of [test.ts], observers assigned. *)
Definition client : Client.SseClient :=
  Client.with_observers returns returns returns
    (Client.new_SseClient localhost_sse None).

Definition json_post (text : string) : IncomingMessage :=
  {| content_type := Some "application/json"; chunks := [text] |}.

Definition ping_message : JSONRPCMessage := Notification "ping" None.

Definition pong_message : JSONRPCMessage :=
  Result (IdNumber 1) (JString "pong").



(** The server once [start()] has run. *)
Definition open_server : Server.SseServer :=
  state_of (Server.start server).

(** The client once [start()] has run, and once the handshake event of
    session [session-1] has come. *)
Definition started_client : Client.SseClient :=
  state_of (Client.start client).

Definition connected_client : Client.SseClient :=
  state_of (Client.on_endpoint "/message?sessionId=session-1" started_client).

Definition reply_address : URL :=
  {| scheme := "http"; host := "localhost"; port := "3000";
     path := "/message?sessionId=session-1" |}.



End Sample.

(** ** Readings of a trace *)

Section Readings.

Context {R : Runtime}.

(** The calls made on the event-stream response of the server. *)
Definition is_stream_effect (x : Effect) : bool :=
  match x with
  | SseWriteHead _ _ | SseWrite _ | SseOnClose | SseEnd => true
  | _ => false
  end.

Definition stream_effects (t : list Effect) : list Effect :=
  filter is_stream_effect t.

(** The status lines written on the response of a POST. *)
Definition is_status (x : Effect) : bool :=
  match x with
  | ResWriteHead _ => true
  | _ => false
  end.

Definition is_observer_call (x : Effect) : bool :=
  match x with
  | CbClose | CbError _ | CbMessage _ => true
  | _ => false
  end.

Definition is_fetch (x : Effect) : bool :=
  match x with
  | Fetch _ _ => true
  | _ => false
  end.

Definition is_stream_end (x : Effect) : bool :=
  match x with
  | SseEnd => true
  | _ => false
  end.

Definition is_stream_open (x : Effect) : bool :=
  match x with
  | SseWriteHead _ _ => true
  | _ => false
  end.

Definition held_count (s : Server.SseServer) : nat :=
  if Server._sseResponse s then 1 else 0.

(** A client that has been started and closed: its stream exists and its
    cancellation signal has been triggered. *)
Definition cancelled (c : Client.SseClient) : Prop :=
  defined (Client._eventSource c) = true
  /\ Client._abortController c = Some true.

(** A server that holds its stream has a listener on the response's
    [close]. *)
Definition listener_registered (s : Server.SseServer) : Prop :=
  Server._sseResponse s = true -> 1 <= closeListeners (Server.res s).

Definition is_handshake (a : Client.Action) : bool :=
  match a with
  | Client.EsEndpoint _ => true
  | _ => false
  end.


End Readings.

(** * Properties *)

(** ** The server half *)

Section ServerProperties.

Context {R : Runtime}.

Implicit Types (s : Server.SseServer) (req : IncomingMessage).

Lemma server_start_held s :
  Server._sseResponse s = true ->
  Server.start s = (s, [], Throw Server.already_started).
Proof.
  intros H. unfold Server.start. js_unfold. now rewrite H.
Qed.

Lemma server_start_not_held s :
  Server._sseResponse s = false ->
  completion_of (Server.start s) = res_writeHead (Server.res s) 200.
Proof.
  intros H. unfold Server.start. js_unfold. rewrite H. simpl.
  destruct (res_writeHead (Server.res s) 200) as [[]|e]; reflexivity.
Qed.

Lemma server_send_not_held s m :
  Server._sseResponse s = false ->
  Server.send m s = (s, [], Throw Server.not_connected).
Proof.
  intros H. unfold Server.send. js_unfold. now rewrite H.
Qed.

Lemma server_close_releases s :
  Server._sseResponse (state_of (Server.close s)) = false.
Proof.
  unfold Server.close. js_unfold.
  destruct (Server._sseResponse s); destruct (Server.onclose s) as [f|];
    simpl; try destruct (f tt); reflexivity.
Qed.

(** What [handleMessage] does, by the verdict of the schema. *)
Lemma server_handleMessage_invalid s v e :
  JSONRPCMessageSchema_parse v = Throw e ->
  trace_of (Server.handleMessage v s)
  = match Server.onerror s with
    | Some _ => [CbError e]
    | None => []
    end
  /\ state_of (Server.handleMessage v s) = s
  /\ throws (completion_of (Server.handleMessage v s)) = true.
Proof.
  intros H. unfold Server.handleMessage. js_unfold. rewrite H.
  destruct (Server.onerror s) as [f|]; simpl; [destruct (f e)|]; auto.
Qed.

Lemma server_handleMessage_valid s v m :
  JSONRPCMessageSchema_parse v = Normal m ->
  trace_of (Server.handleMessage v s)
  = match Server.onmessage s with
    | Some _ => [CbMessage m]
    | None => []
    end
  /\ state_of (Server.handleMessage v s) = s.
Proof.
  intros H. unfold Server.handleMessage. js_unfold. rewrite H.
  destruct (Server.onmessage s) as [f|]; simpl; [destruct (f m)|]; auto.
Qed.

Lemma check_content_type_supported s req :
  Server.unsupported (content_type req) = false ->
  Server.check_content_type req s = (s, [], Normal tt).
Proof.
  intros H. unfold Server.check_content_type. now rewrite H.
Qed.

(** The [end] listener after the content type and [JSON.parse] have passed:
    whatever [handleMessage] does, the request is answered 202. *)
Lemma server_on_req_end_parsed s req v :
  Server.unsupported (content_type req) = false ->
  JSON_parse (Server.read_body req) = Normal v ->
  Server.on_req_end req s
  = (state_of (Server.handleMessage v s),
     trace_of (Server.handleMessage v s)
       ++ [ResWriteHead 202; ResEnd "Accepted"],
     Normal tt).
Proof.
  intros Hct Hparse. unfold Server.on_req_end.
  unfold bind at 1, get, try_catch, bind at 1.
  rewrite (check_content_type_supported s req Hct).
  unfold bind at 1, lift at 1. rewrite Hparse.
  unfold bind at 1, unawaited. js_unfold.
  destruct (Server.handleMessage v s) as [[s1 t1] c1]. reflexivity.
Qed.

(** The [end] listener when [JSON.parse] throws. *)
Lemma server_on_req_end_syntax_error s req e :
  Server.unsupported (content_type req) = false ->
  JSON_parse (Server.read_body req) = Throw e ->
  trace_of (Server.on_req_end req s)
  = [ResWriteHead 400; ResEnd ("Invalid message: " ++ error_toString e)]
    ++ match Server.onerror s with
       | Some _ => [CbError e]
       | None => []
       end.
Proof.
  intros Hct Hparse. unfold Server.on_req_end.
  unfold bind at 1, get, try_catch, bind at 1.
  rewrite (check_content_type_supported s req Hct).
  unfold bind at 1, lift at 1. rewrite Hparse. js_unfold.
  destruct (Server.onerror s) as [f|]; simpl; [destruct (f e)|]; reflexivity.
Qed.

Lemma server_handlePostMessage_held s req :
  Server._sseResponse s = true ->
  Server.handlePostMessage req s = (s, [], Normal tt).
Proof.
  intros H. unfold Server.handlePostMessage. js_unfold. now rewrite H.
Qed.

Lemma server_post_open s req :
  Server._sseResponse s = true ->
  Server.post req s = Server.on_req_end req s.
Proof.
  intros H. unfold Server.post, bind.
  rewrite (server_handlePostMessage_held s req H).
  destruct (Server.on_req_end req s) as [[s1 t1] c1]. reflexivity.
Qed.

Lemma server_close_spec s :
  Server.close s
  = (server_closed s, server_close_trace s,
     observer_completion (Server.onclose s) tt).
Proof.
  unfold Server.close, server_closed, server_close_trace,
    observer_completion.
  js_unfold.
  destruct (Server._sseResponse s); destruct (Server.onclose s) as [f|];
    reflexivity.
Qed.

Lemma server_on_res_close_spec s :
  Server.on_res_close s
  = (Server.set_sseResponse false s,
     if defined (Server.onclose s) then [CbClose] else [],
     observer_completion (Server.onclose s) tt).
Proof.
  unfold Server.on_res_close, observer_completion. js_unfold.
  destruct (Server.onclose s) as [f|]; reflexivity.
Qed.

(** One registered listener: the [close] event of the response runs it
    once. *)
Lemma server_emit_close_once s :
  closeListeners (Server.res s) = 1 ->
  state_of (Server.res_emit_close s) = Server.set_sseResponse false s
  /\ trace_of (Server.res_emit_close s)
     = if defined (Server.onclose s) then [CbClose] else [].
Proof.
  intros H. unfold Server.res_emit_close. js_unfold.
  rewrite H. cbn [Server.run_listeners]. js_unfold.
  rewrite server_on_res_close_spec. unfold observer_completion.
  destruct (Server.onclose s) as [f|]; cbn [defined];
    [destruct (f tt) as [[]|]|]; split; reflexivity.
Qed.

Lemma count_onclose_app (t1 t2 : list Effect) :
  count_onclose (t1 ++ t2)
  = count_onclose t1 + count_onclose t2.
Proof.
  unfold count_onclose. now rewrite filter_app, length_app.
Qed.

(** What a successful [start] leaves. *)
Lemma server_start_spec s :
  Server._sseResponse s = false ->
  res_writeHead (Server.res s) 200 = Normal tt ->
  Server.start s
  = (Server.set_res
       (Server.add_closeListener (Server.mark_headersSent (Server.res s)))
       (Server.set_sseResponse true s),
     [SseWriteHead 200 Server.sse_headers; SseWrite (Server.endpoint_frame s);
      SseOnClose],
     Normal tt).
Proof.
  intros Hs Hw. unfold Server.start. js_unfold. rewrite Hs.
  js_unfold. rewrite Hw. reflexivity.
Qed.

Lemma started_once_step f a s :
  started_once f s ->
  close_or_disconnect a ->
  started_once f (state_of (Server.perform a s))
  /\ count_onclose (trace_of (Server.perform a s)) = 1.
Proof.
  intros [Hf Hn] [->| ->]; cbn [Server.perform].
  - rewrite server_close_spec. cbn [state_of trace_of fst snd].
    unfold started_once, server_closed, server_close_trace.
    rewrite Hf. cbn [defined].
    destruct (Server._sseResponse s); cbn; auto.
  - destruct (server_emit_close_once s Hn) as [-> ->].
    rewrite Hf. cbn. unfold started_once. cbn. auto.
Qed.

Lemma started_once_run f acts :
  Forall close_or_disconnect acts ->
  forall s, started_once f s ->
  count_onclose (snd (Server.run acts s)) = length acts.
Proof.
  induction 1 as [|a acts Ha _ IH]; intros s Hs; [reflexivity|].
  cbn [Server.run length].
  destruct (started_once_step Hs Ha) as [Hs1 Hc].
  destruct (Server.perform a s) as [[s1 t1] c1].
  cbn [state_of trace_of fst snd] in Hs1, Hc.
  specialize (IH s1 Hs1).
  destruct (Server.run acts s1) as [s2 t2]. cbn [snd] in *.
  rewrite count_onclose_app. lia.
Qed.

Lemma server_handleMessage_trace s v :
  trace_of (Server.handleMessage v s)
  = match JSONRPCMessageSchema_parse v with
    | Normal m => reported (Server.onmessage s) (CbMessage m)
    | Throw e => reported (Server.onerror s) (CbError e)
    end.
Proof.
  unfold reported.
  destruct (JSONRPCMessageSchema_parse v) as [m|e] eqn:H.
  - destruct (server_handleMessage_valid s v H) as [-> _].
    now destruct (Server.onmessage s).
  - destruct (server_handleMessage_invalid s v H) as [-> _].
    now destruct (Server.onerror s).
Qed.

(** Everything a POST leads to, case by case. *)
Lemma server_post_trace s req :
  trace_of (Server.post req s)
  = if Server._sseResponse s then
      if Server.unsupported (content_type req) then
        rejected_post s
          (MkError ("Unsupported content-type: "
                    ++ show_undefined (content_type req)))
      else
        match JSON_parse (Server.read_body req) with
        | Throw e => rejected_post s e
        | Normal v => trace_of (Server.handleMessage v s) ++ accepted_post
        end
    else [ResWriteHead 500; ResEnd Server.not_established].
Proof.
  destruct (Server._sseResponse s) eqn:Hs.
  - rewrite (server_post_open s req Hs).
    destruct (Server.unsupported (content_type req)) eqn:Hct.
    + unfold Server.on_req_end, Server.check_content_type, rejected_post,
        reported.
      rewrite Hct. js_unfold.
      destruct (Server.onerror s) as [f|]; reflexivity.
    + destruct (JSON_parse (Server.read_body req)) as [v|e] eqn:Hp.
      * now rewrite (server_on_req_end_parsed s req Hct Hp).
      * rewrite (server_on_req_end_syntax_error s req Hct Hp).
        unfold rejected_post, reported.
        now destruct (Server.onerror s).
  - unfold Server.post, Server.handlePostMessage. js_unfold.
    now rewrite Hs.
Qed.

End ServerProperties.

(** ** The client half *)

Section ClientProperties.

Context {R : Runtime}.

Implicit Types (s : Client.SseClient).

Lemma client_start_again s :
  defined (Client._eventSource s) = true ->
  Client.start s = (s, [], Throw Client.already_started).
Proof.
  intros H. unfold Client.start. js_unfold. now rewrite H.
Qed.

Lemma client_send_no_endpoint s m :
  Client._endpoint s = None ->
  Client.send m s = (s, [], Throw Client.not_connected).
Proof.
  intros H. unfold Client.send. js_unfold. now rewrite H.
Qed.

(** [send] past its guard: the POST is attempted, and what follows depends
    on [fetch] alone. *)
Lemma client_send_endpoint s m endpoint :
  Client._endpoint s = Some endpoint ->
  Client.send m s
  = let init := Client.post_init s m in
    let report error :=
      match Client.onerror s with
      | Some f =>
          (s, [Fetch endpoint init; CbError error],
           match f error with
           | Normal _ => Throw error
           | Throw e => Throw e
           end)
      | None => (s, [Fetch endpoint init], Throw error)
      end in
    match fetch endpoint init with
    | Normal response =>
        if ok response then (s, [Fetch endpoint init], Normal tt)
        else report (Client.post_failed response)
    | Throw error => report error
    end.
Proof.
  intros H. unfold Client.send. js_unfold. rewrite H. js_unfold.
  destruct (fetch endpoint (Client.post_init s m)) as [response|error].
  - destruct (ok response); [reflexivity|].
    destruct (Client.onerror s) as [f|]; [|reflexivity].
    destruct (f (Client.post_failed response)) as [[]|]; reflexivity.
  - destruct (Client.onerror s) as [f|]; [|reflexivity].
    destruct (f error) as [[]|]; reflexivity.
Qed.

Lemma client_send_state s m :
  state_of (Client.send m s) = s.
Proof.
  destruct (Client._endpoint s) as [endpoint|] eqn:H.
  - rewrite (client_send_endpoint s m H). cbv zeta.
    destruct (fetch endpoint (Client.post_init s m)) as [response|error];
      [destruct (ok response)|]; try reflexivity;
      destruct (Client.onerror s); reflexivity.
  - now rewrite (client_send_no_endpoint s m H).
Qed.

Lemma client_close_spec s :
  Client.close s
  = (closed s, close_trace s,
     match Client.onclose s with
     | Some f => f tt
     | None => Normal tt
     end).
Proof.
  unfold Client.close, closed, close_trace.
  client_cases s; js_unfold; cbn [defined option_map]; js_unfold;
    reflexivity.
Qed.

Lemma client_on_endpoint_spec s data :
  Client.on_endpoint data s
  = match URL_new data (Client._url s) with
    | Normal endpoint =>
        let s1 := Client.set_endpoint (Some endpoint) s in
        if String.eqb (origin endpoint) (origin (Client._url s))
        then (Client.settle Client.Resolved s1, [Resolve], Normal tt)
        else handshake_failed (Client.origin_mismatch endpoint) s1
    | Throw error => handshake_failed error s
    end.
Proof.
  unfold Client.on_endpoint, Client.on_endpoint_catch, handshake_failed,
    Client.resolve, Client.reject.
  js_unfold.
  destruct (URL_new data (Client._url s)) as [endpoint|error].
  - destruct (String.eqb (origin endpoint) (origin (Client._url s)));
      cbn [negb]; [reflexivity|].
    destruct (Client.onerror s) as [f|].
    + destruct (f (Client.origin_mismatch endpoint)) as [[]|e];
        [|reflexivity].
      rewrite client_close_spec. now trace_norm.
    + rewrite client_close_spec. now trace_norm.
  - destruct (Client.onerror s) as [f|].
    + destruct (f error) as [[]|e]; [|reflexivity].
      rewrite client_close_spec. now trace_norm.
    + rewrite client_close_spec. now trace_norm.
Qed.

Lemma client_on_es_message_state s data :
  state_of (Client.on_es_message data s) = s.
Proof.
  unfold Client.on_es_message. js_unfold.
  destruct (JSON_parse data) as [v|e].
  - destruct (JSONRPCMessageSchema_parse v) as [m|e].
    + destruct (Client.onmessage s) as [f|]; [destruct (f m)|]; reflexivity.
    + destruct (Client.onerror s) as [f|]; [destruct (f e) as [[]|]|];
        reflexivity.
  - destruct (Client.onerror s) as [f|]; [destruct (f e) as [[]|]|];
      reflexivity.
Qed.






Lemma settle_fields v s :
  Client._eventSource (Client.settle v s) = Client._eventSource s
  /\ Client._abortController (Client.settle v s) = Client._abortController s
  /\ Client._endpoint (Client.settle v s) = Client._endpoint s
  /\ Client._url (Client.settle v s) = Client._url s
  /\ Client.onerror (Client.settle v s) = Client.onerror s.
Proof.
  unfold Client.settle. destruct (Client.started s) as [[]|]; cbn; auto.
Qed.

Lemma client_listening s (m : Js Client.SseClient unit) :
  bind get (fun s0 => Client.listening s0 m) s
  = if defined (Client._eventSource s) then m s else (s, [], Normal tt).
Proof.
  unfold Client.listening. js_unfold.
  destruct (defined (Client._eventSource s)); [|reflexivity].
  now destruct (m s) as [[s1 t1] c1].
Qed.

Lemma client_on_es_message_trace s data :
  trace_of (Client.on_es_message data s)
  = match JSON_parse data with
    | Normal v =>
        match JSONRPCMessageSchema_parse v with
        | Normal m => reported (Client.onmessage s) (CbMessage m)
        | Throw e => reported (Client.onerror s) (CbError e)
        end
    | Throw e => reported (Client.onerror s) (CbError e)
    end.
Proof.
  unfold Client.on_es_message, reported. js_unfold.
  destruct (JSON_parse data) as [v|e].
  - destruct (JSONRPCMessageSchema_parse v) as [m|e].
    + destruct (Client.onmessage s) as [f|]; [destruct (f m)|]; reflexivity.
    + destruct (Client.onerror s) as [f|]; [destruct (f e) as [[]|]|];
        reflexivity.
  - destruct (Client.onerror s) as [f|]; [destruct (f e) as [[]|]|];
      reflexivity.
Qed.

(** Once [start] has created the stream, the field that holds it is never
    cleared. *)
Lemma client_eventSource_stays a s :
  defined (Client._eventSource s) = true ->
  defined (Client._eventSource (state_of (Client.perform a s))) = true.
Proof.
  intros Hes.
  destruct a as [| |m|code message|data|data]; cbn [Client.perform];
    rewrite ?client_listening, ?Hes.
  - now rewrite (client_start_again s Hes).
  - rewrite client_close_spec. cbn.
    now destruct (Client._eventSource s).
  - now rewrite client_send_state.
  - unfold Client.on_es_error, Client.reject. js_unfold.
    destruct (Client.onerror s) as [f|];
      [destruct (f (SseError code message)) as [[]|]|];
      now destruct (settle_fields
                      (Client.Rejected (SseError code message)) s)
        as (-> & _).
  - rewrite client_on_endpoint_spec.
    assert (Hfail : forall error s1,
               defined (Client._eventSource s1) = true ->
               defined (Client._eventSource
                          (state_of (handshake_failed error s1))) = true).
    { intros error s1 H1. unfold handshake_failed.
      destruct (settle_fields (Client.Rejected error) s1) as (Fes & _).
      destruct (Client.onerror s1) as [f|]; [destruct (f error)|];
        cbn; rewrite Fes; now destruct (Client._eventSource s1). }
    destruct (URL_new data (Client._url s)) as [endpoint|error];
      [cbv zeta;
       destruct (String.eqb (origin endpoint) (origin (Client._url s)))|].
    + cbn [state_of fst].
      now destruct (settle_fields Client.Resolved
                      (Client.set_endpoint (Some endpoint) s)) as (-> & _).
    + now apply Hfail.
    + now apply Hfail.
  - now rewrite client_on_es_message_state.
Qed.





End ClientProperties.

(** ** Main results *)

Section MainResults.

Context {R : Runtime}.

(** A POST whose body is JSON but not a message: [handleMessage] reports
    it to [onerror] and throws, the throw settles a promise nobody awaits,
    and the request is answered 202. *)
Lemma server_post_schema_violation (s : Server.SseServer) req v e :
  Server._sseResponse s = true ->
  Server.unsupported (content_type req) = false ->
  JSON_parse (Server.read_body req) = Normal v ->
  JSONRPCMessageSchema_parse v = Throw e ->
  trace_of (Server.post req s)
  = reported (Server.onerror s) (CbError e) ++ accepted_post.
Proof.
  intros Hs Hct Hp Hv.
  rewrite server_post_trace, Hs, Hct, Hp, server_handleMessage_trace.
  now rewrite Hv.
Qed.

(** A POST whose body is not JSON is answered 400 and reported to
    [onerror]; neither [onmessage] nor the 202 follows. *)
Lemma server_post_syntax_error (s : Server.SseServer) req e :
  Server._sseResponse s = true ->
  Server.unsupported (content_type req) = false ->
  JSON_parse (Server.read_body req) = Throw e ->
  trace_of (Server.post req s) = rejected_post s e.
Proof.
  intros Hs Hct Hp. now rewrite server_post_trace, Hs, Hct, Hp.
Qed.

(** C3, amended.  For every POST on an open stream whose content type is
    JSON and whose body parses and validates, the message observer runs
    first and the 202 [Accepted] is written after it; the request is
    answered 202 whether the observer returns or throws, because
    [handleMessage] is asynchronous and its promise is not awaited. *)
Theorem server_post_valid_message (s : Server.SseServer) req v m :
  Server._sseResponse s = true ->
  Server.unsupported (content_type req) = false ->
  JSON_parse (Server.read_body req) = Normal v ->
  JSONRPCMessageSchema_parse v = Normal m ->
  Server.post req s
  = (s,
     reported (Server.onmessage s) (CbMessage m)
       ++ [ResWriteHead 202; ResEnd "Accepted"],
     Normal tt).
Proof.
  intros Hs Hct Hp Hv.
  rewrite (server_post_open s req Hs).
  rewrite (server_on_req_end_parsed s req Hct Hp).
  destruct (server_handleMessage_valid s v Hv) as [-> ->].
  unfold reported. now destruct (Server.onmessage s).
Qed.

(** C4, amended.  On a server that has been started, every explicit
    [close()] and every disconnect notification of the stream calls
    [onclose] once, in whatever order they come: neither path is guarded
    against the other, and the calls add up. *)
Theorem server_onclose_per_close_and_disconnect
    (s : Server.SseServer) f acts :
  Server._sseResponse s = false ->
  closeListeners (Server.res s) = 0 ->
  Server.onclose s = Some f ->
  completion_of (Server.start s) = Normal tt ->
  Forall close_or_disconnect acts ->
  count_onclose (snd (Server.run (Server.Start :: acts) s))
  = length acts.
Proof.
  intros Hs Hn Hf Hstart Hacts.
  rewrite (server_start_not_held s Hs) in Hstart.
  cbn [Server.run Server.perform].
  rewrite (server_start_spec s Hs Hstart).
  match goal with
  | |- context [Server.run acts ?s1] =>
      assert (H1 : started_once f s1)
        by (split; cbn; [exact Hf | now rewrite Hn]);
      pose proof (started_once_run Hacts H1) as Hrun;
      destruct (Server.run acts s1) as [s2 t2]
  end.
  cbn [snd] in *. rewrite count_onclose_app, Hrun. reflexivity.
Qed.


Lemma in_reported {X} (cb : option (X -> Completion unit)) (x y : Effect) :
  In y (reported cb x) -> y = x.
Proof.
  unfold reported. destruct (defined cb); cbn; intuition congruence.
Qed.

Lemma server_post_message_validated (s : Server.SseServer) req m :
  In (CbMessage m) (trace_of (Server.post req s)) ->
  exists v, JSON_parse (Server.read_body req) = Normal v
            /\ JSONRPCMessageSchema_parse v = Normal m.
Proof.
  rewrite server_post_trace. unfold rejected_post, accepted_post.
  destruct (Server._sseResponse s).
  - destruct (Server.unsupported (content_type req)).
    + intros [H|[H|H]]; try discriminate.
      apply in_reported in H. discriminate.
    + destruct (JSON_parse (Server.read_body req)) as [v|e].
      * rewrite server_handleMessage_trace.
        destruct (JSONRPCMessageSchema_parse v) as [m'|e] eqn:Hv;
          intros H; apply in_app_or in H; destruct H as [H|H].
        -- apply in_reported in H. exists v. split; congruence.
        -- destruct H as [H|[H|[]]]; discriminate.
        -- apply in_reported in H. discriminate.
        -- destruct H as [H|[H|[]]]; discriminate.
      * intros [H|[H|H]]; try discriminate.
        apply in_reported in H. discriminate.
  - intros [H|[H|[]]]; discriminate.
Qed.

Lemma client_message_validated (c : Client.SseClient) data m :
  In (CbMessage m) (trace_of (Client.on_es_message data c)) ->
  exists v, JSON_parse data = Normal v
            /\ JSONRPCMessageSchema_parse v = Normal m.
Proof.
  rewrite client_on_es_message_trace.
  destruct (JSON_parse data) as [v|e].
  - destruct (JSONRPCMessageSchema_parse v) as [m'|e] eqn:Hv;
      intros H; apply in_reported in H; [|discriminate].
    exists v. split; congruence.
  - intros H. apply in_reported in H. discriminate.
Qed.

(** C6.  On both halves [onmessage] is called only with the outcome of a
    successful validation of the payload; a payload that the schema
    rejects is reported to [onerror] and [onmessage] is not called. *)
Theorem onmessage_only_validated
    (s : Server.SseServer) (c : Client.SseClient) req data v e f g :
  (forall m,
      In (CbMessage m) (trace_of (Server.post req s)) ->
      exists v', JSON_parse (Server.read_body req) = Normal v'
                 /\ JSONRPCMessageSchema_parse v' = Normal m)
  /\ (forall m,
      In (CbMessage m) (trace_of (Client.on_es_message data c)) ->
      exists v', JSON_parse data = Normal v'
                 /\ JSONRPCMessageSchema_parse v' = Normal m)
  /\ (JSONRPCMessageSchema_parse v = Throw e ->
      Server.onerror s = Some f ->
      Server._sseResponse s = true ->
      Server.unsupported (content_type req) = false ->
      JSON_parse (Server.read_body req) = Normal v ->
      In (CbError e) (trace_of (Server.post req s))
      /\ forall m, ~ In (CbMessage m) (trace_of (Server.post req s)))
  /\ (JSONRPCMessageSchema_parse v = Throw e ->
      Client.onerror c = Some g ->
      JSON_parse data = Normal v ->
      trace_of (Client.on_es_message data c) = [CbError e]).
Proof.
  split; [|split; [|split]].
  - intros m. apply server_post_message_validated.
  - intros m. apply client_message_validated.
  - intros Hv Hf Hs Hct Hp. split.
    + rewrite (server_post_schema_violation s req Hs Hct Hp Hv).
      unfold reported. rewrite Hf. now left.
    + intros m Hin.
      destruct (server_post_message_validated s req m Hin) as (v' & H1 & H2).
      congruence.
  - intros Hv Hg Hp.
    rewrite client_on_es_message_trace, Hp, Hv.
    unfold reported. now rewrite Hg.
Qed.



(** C10.  [close()] has no guard on either half.  On a transport that was
    never started it records nothing but the call of [onclose], when that
    observer is assigned, and it completes as the observer does: without
    error when the observer returns.  In every other state too, open ones
    included, it calls [onclose] once and completes as it does. *)
Theorem close_is_unguarded
    (endpoint uuid : string) (r : ServerResponse) (url : URL)
    (init : option RequestInit)
    (oc : option (unit -> Completion unit))
    (oe : option (JsError -> Completion unit))
    (om : option (JSONRPCMessage -> Completion unit))
    (s : Server.SseServer) (c : Client.SseClient) :
  (let s0 := Server.with_observers oc oe om
               (Server.new_SseServer endpoint r uuid) in
   Server.close s0
   = (s0, reported oc CbClose, observer_completion oc tt))
  /\ (let c0 := Client.with_observers oc oe om
                  (Client.new_SseClient url init) in
      Client.close c0
      = (c0, reported oc CbClose, observer_completion oc tt))
  /\ closes_unguarded s
  /\ closes_unguarded c.
Proof.
  unfold closes_unguarded.
  cbn [transport_close transport_onclose Server.transport Client.transport].
  split; [|split; [|split; split]]; cbv zeta.
  - now rewrite server_close_spec.
  - now rewrite client_close_spec.
  - rewrite server_close_spec. cbn [trace_of fst snd].
    unfold server_close_trace.
    now destruct (Server._sseResponse s), (defined (Server.onclose s)).
  - now rewrite server_close_spec.
  - rewrite client_close_spec. cbn [trace_of fst snd].
    unfold close_trace.
    now destruct (defined (Client._abortController c)),
      (defined (Client._eventSource c)), (defined (Client.onclose c)).
  - now rewrite client_close_spec.
Qed.



End MainResults.

(** ** The results on the concrete runtime *)

(** The four violations the specification names are rejected by the
    schema, and the two well-formed messages are accepted. *)
Lemma sample_schema_verdicts :
  map (fun v => throws (Sample.schema_parse v)) Sample.corpus
  = [false; false; true; true; true; true].
Proof. reflexivity. Qed.

(** C2, at the failing input.  On the open server of the sample, a POST
    with a JSON content type whose body is
    [{"jsonrpc":"1.0","method":"ping"}] is reported to [onerror] by
    [handleMessage] and then answered 202 [Accepted]; no 400 is written.
    A body that is not JSON at all is answered 400. *)
Theorem invalid_message_post_is_accepted :
  Server.post (Sample.json_post (Sample.stringify Sample.wrong_version))
    Sample.open_server
  = (Sample.open_server,
     [CbError (Sample.schema_error "jsonrpc: expected 2.0");
      ResWriteHead 202; ResEnd "Accepted"],
     Normal tt)
  /\ trace_of (Server.post (Sample.json_post Sample.not_json)
                 Sample.open_server)
     = [ResWriteHead 400;
        ResEnd "Invalid message: SyntaxError: Unexpected token";
        CbError (Foreign "SyntaxError" "Unexpected token")].
Proof. split; reflexivity. Qed.

(** C3 refuted as stated: for the valid notification [ping] the message
    observer is called before the 202 is written. *)
Lemma onmessage_runs_before_accepted :
  Server.post (Sample.json_post (Sample.stringify Sample.ping))
    Sample.open_server
  = (Sample.open_server,
     [CbMessage Sample.ping_message;
      ResWriteHead 202; ResEnd "Accepted"],
     Normal tt).
Proof. reflexivity. Qed.

Lemma server_post_valid_message_witness :
  Server.post (Sample.json_post (Sample.stringify Sample.ping))
    (Server.with_observers Sample.returns Sample.returns Sample.fails
       Sample.open_server)
  = (Server.with_observers Sample.returns Sample.returns Sample.fails
       Sample.open_server,
     [CbMessage Sample.ping_message;
      ResWriteHead 202; ResEnd "Accepted"],
     Normal tt).
Proof.
  exact (@server_post_valid_message Sample.runtime
           (Server.with_observers Sample.returns Sample.returns Sample.fails
              Sample.open_server)
           (Sample.json_post (Sample.stringify Sample.ping))
           Sample.ping Sample.ping_message
           eq_refl eq_refl eq_refl eq_refl).
Defined.

(** C4 refuted as stated: an explicit [close()] followed by the
    disconnect notification of the stream calls [onclose] twice. *)
Lemma onclose_called_twice :
  snd (Server.run [Server.Start; Server.Close; Server.Disconnect]
         Sample.server)
  = [SseWriteHead 200 Server.sse_headers;
     SseWrite (Server.endpoint_frame Sample.server);
     SseOnClose; SseEnd; CbClose; CbClose]
  /\ count_onclose
       (snd (Server.run [Server.Start; Server.Close; Server.Disconnect]
               Sample.server)) = 2
  /\ count_onclose
       (snd (Server.run [Server.Start; Server.Disconnect; Server.Close]
               Sample.server)) = 2.
Proof. repeat split. Qed.

Lemma server_onclose_per_close_and_disconnect_witness :
  count_onclose
    (snd (Server.run [Server.Start; Server.Close; Server.Disconnect]
            Sample.server)) = 2.
Proof.
  exact (@server_onclose_per_close_and_disconnect Sample.runtime
           Sample.server (fun _ => Normal tt)
           [Server.Close; Server.Disconnect]
           eq_refl eq_refl eq_refl eq_refl
           (Forall_cons _ (or_introl eq_refl)
              (Forall_cons _ (or_intror eq_refl) (Forall_nil _)))).
Defined.



Lemma onmessage_only_validated_witness :
  In (CbError (Sample.schema_error "jsonrpc: expected 2.0"))
    (trace_of (Server.post
                 (Sample.json_post (Sample.stringify Sample.wrong_version))
                 Sample.open_server))
  /\ trace_of (Client.on_es_message (Sample.stringify Sample.wrong_version)
                 Sample.client)
     = [CbError (Sample.schema_error "jsonrpc: expected 2.0")].
Proof.
  destruct (@onmessage_only_validated Sample.runtime
              Sample.open_server Sample.client
              (Sample.json_post (Sample.stringify Sample.wrong_version))
              (Sample.stringify Sample.wrong_version)
              Sample.wrong_version
              (Sample.schema_error "jsonrpc: expected 2.0")
              (fun _ => Normal tt) (fun _ => Normal tt))
    as (_ & _ & Hs & Hc).
  split.
  - exact (proj1 (Hs eq_refl eq_refl eq_refl eq_refl eq_refl)).
  - exact (Hc eq_refl eq_refl eq_refl).
Defined.






(** ** Further properties of the server half *)

Section ServerFurther.

Context {R : Runtime}.

Implicit Types (s : Server.SseServer) (req : IncomingMessage).

Lemma server_handleMessage_state s v :
  state_of (Server.handleMessage v s) = s.
Proof.
  destruct (JSONRPCMessageSchema_parse v) as [m|e] eqn:H.
  - now destruct (server_handleMessage_valid s v H).
  - now destruct (server_handleMessage_invalid s v H) as (_ & ? & _).
Qed.

Lemma server_on_req_end_state s req :
  state_of (Server.on_req_end req s) = s.
Proof.
  destruct (Server.unsupported (content_type req)) eqn:Hct.
  - unfold Server.on_req_end, Server.check_content_type.
    rewrite Hct. js_unfold.
    destruct (Server.onerror s) as [f|]; reflexivity.
  - destruct (JSON_parse (Server.read_body req)) as [v|e] eqn:Hp.
    + rewrite (server_on_req_end_parsed s req Hct Hp).
      apply server_handleMessage_state.
    + unfold Server.on_req_end.
      unfold bind at 1, get, try_catch, bind at 1.
      rewrite (check_content_type_supported s req Hct).
      unfold bind at 1, lift at 1. rewrite Hp. js_unfold.
      destruct (Server.onerror s) as [f|]; reflexivity.
Qed.

Lemma server_post_state s req :
  state_of (Server.post req s) = s.
Proof.
  destruct (Server._sseResponse s) eqn:Hs.
  - rewrite (server_post_open s req Hs). apply server_on_req_end_state.
  - unfold Server.post, Server.handlePostMessage. js_unfold.
    now rewrite Hs.
Qed.

(** The listeners of the response's [close], run one after the other. *)
Lemma server_run_listeners_spec n :
  forall s,
  state_of (Server.run_listeners n s)
  = match n with
    | O => s
    | S _ => Server.set_sseResponse false s
    end
  /\ stream_effects (trace_of (Server.run_listeners n s)) = []
  /\ (forall x, In x (trace_of (Server.run_listeners n s)) -> x = CbClose).
Proof.
  induction n as [|k IH]; intros s.
  - cbn. repeat split. intros x [].
  - cbn [Server.run_listeners]. unfold bind.
    rewrite server_on_res_close_spec. unfold observer_completion.
    destruct (Server.onclose s) as [f|]; cbn [defined].
    + destruct (f tt) as [[]|e].
      * destruct (IH (Server.set_sseResponse false s)) as (Hst & Hse & Hin).
        destruct (Server.run_listeners k (Server.set_sseResponse false s))
          as [[s2 t2] c2].
        cbn [state_of trace_of fst snd] in *.
        repeat split.
        -- rewrite Hst. now destruct k.
        -- exact Hse.
        -- intros x [<-|Hx]; [reflexivity|now apply Hin].
      * cbn. repeat split. intros x [<-|[]]. reflexivity.
    + destruct (IH (Server.set_sseResponse false s)) as (Hst & Hse & Hin).
      destruct (Server.run_listeners k (Server.set_sseResponse false s))
        as [[s2 t2] c2].
      cbn [state_of trace_of fst snd app] in *.
      repeat split.
      * rewrite Hst. now destruct k.
      * exact Hse.
      * exact Hin.
Qed.

Lemma server_emit_close_spec s :
  state_of (Server.res_emit_close s)
  = match closeListeners (Server.res s) with
    | O => s
    | S _ => Server.set_sseResponse false s
    end
  /\ stream_effects (trace_of (Server.res_emit_close s)) = [].
Proof.
  unfold Server.res_emit_close. unfold bind, get.
  destruct (server_run_listeners_spec (closeListeners (Server.res s)) s)
    as (Hst & Hse & _).
  destruct (Server.run_listeners (closeListeners (Server.res s)) s)
    as [[s2 t2] c2].
  cbn [state_of trace_of fst snd app] in *. now split.
Qed.

Lemma server_start_failed s e :
  Server._sseResponse s = false ->
  res_writeHead (Server.res s) 200 = Throw e ->
  Server.start s = (s, [], Throw e).
Proof.
  intros Hs Hw. unfold Server.start. js_unfold. rewrite Hs.
  js_unfold. now rewrite Hw.
Qed.

Lemma server_send_held s m :
  Server._sseResponse s = true ->
  Server.send m s = (s, [SseWrite (Server.message_frame m)], Normal tt).
Proof.
  intros H. unfold Server.send. js_unfold. now rewrite H.
Qed.

Lemma server_send_state s m :
  state_of (Server.send m s) = s.
Proof.
  destruct (Server._sseResponse s) eqn:H.
  - now rewrite (server_send_held s m H).
  - now rewrite (server_send_not_held s m H).
Qed.

(** What a call or event does to the state, action by action. *)
Lemma server_perform_state a s :
  state_of (Server.perform a s)
  = match a with
    | Server.Start =>
        if Server._sseResponse s then s
        else match res_writeHead (Server.res s) 200 with
             | Normal _ =>
                 Server.set_res
                   (Server.add_closeListener
                      (Server.mark_headersSent (Server.res s)))
                   (Server.set_sseResponse true s)
             | Throw _ => s
             end
    | Server.Close => server_closed s
    | Server.Send _ => s
    | Server.Post _ => s
    | Server.Disconnect =>
        match closeListeners (Server.res s) with
        | O => s
        | S _ => Server.set_sseResponse false s
        end
    end.
Proof.
  destruct a as [| |m|req|]; cbn [Server.perform].
  - destruct (Server._sseResponse s) eqn:Hs.
    + now rewrite (server_start_held s Hs).
    + destruct (res_writeHead (Server.res s) 200) as [[]|e] eqn:Hw.
      * now rewrite (server_start_spec s Hs Hw).
      * now rewrite (server_start_failed s Hs Hw).
  - now rewrite server_close_spec.
  - apply server_send_state.
  - apply server_post_state.
  - apply server_emit_close_spec.
Qed.

Lemma listener_registered_perform a s :
  listener_registered s -> listener_registered (state_of (Server.perform a s)).
Proof.
  intros Hinv. rewrite server_perform_state.
  destruct a as [| |m|req|]; auto.
  - destruct (Server._sseResponse s); auto.
    destruct (res_writeHead (Server.res s) 200); auto.
    intros _. cbn. lia.
  - intros H. unfold server_closed in H. cbn in H. discriminate.
  - destruct (closeListeners (Server.res s)); auto.
    intros H. cbn in H. discriminate.
Qed.

Lemma listener_registered_run acts :
  forall s,
  listener_registered s -> listener_registered (fst (Server.run acts s)).
Proof.
  induction acts as [|a acts IH]; intros s Hs; [exact Hs|].
  cbn [Server.run].
  pose proof (listener_registered_perform a Hs) as H1.
  destruct (Server.perform a s) as [[s1 t1] c1]. cbn in H1.
  specialize (IH s1 H1).
  now destruct (Server.run acts s1).
Qed.

(** X1.  A POST that reaches a server which does not hold its stream -
    never started, or closed - is answered 500 with the text "SSE
    connection not established" and rejected with that error; the body is
    not read, no observer is called, the state is unchanged. *)
Theorem server_post_without_stream s req :
  (Server._sseResponse s = false ->
   Server.post req s
   = (s, [ResWriteHead 500; ResEnd "SSE connection not established"],
      Throw (MkError "SSE connection not established")))
  /\ (let s1 := state_of (Server.close s) in
      Server.post req s1
      = (s1, [ResWriteHead 500; ResEnd "SSE connection not established"],
         Throw (MkError "SSE connection not established"))).
Proof.
  assert (H : forall s0, Server._sseResponse s0 = false ->
              Server.post req s0
              = (s0, [ResWriteHead 500;
                      ResEnd "SSE connection not established"],
                 Throw (MkError "SSE connection not established"))).
  { intros s0 Hs. unfold Server.post, Server.handlePostMessage.
    js_unfold. now rewrite Hs. }
  split; [apply H|].
  cbv zeta. apply H, server_close_releases.
Qed.

(** X2.  On an open server a POST without a JSON content type is answered
    400 with a text that names the type, and the error is passed to
    [onerror]; the body plays no part (it is never parsed) and [onmessage]
    is not called. *)
Theorem server_post_unsupported_content_type s ct body other :
  Server._sseResponse s = true ->
  Server.unsupported ct = true ->
  let error := MkError ("Unsupported content-type: " ++ show_undefined ct) in
  trace_of (Server.post {| content_type := ct; chunks := body |} s)
  = [ResWriteHead 400;
     ResEnd ("Invalid message: Error: Unsupported content-type: "
             ++ show_undefined ct)]
    ++ reported (Server.onerror s) (CbError error)
  /\ trace_of (Server.post {| content_type := ct; chunks := other |} s)
     = trace_of (Server.post {| content_type := ct; chunks := body |} s).
Proof.
  intros Hs Hct. cbv zeta.
  rewrite !server_post_trace, Hs. cbn [content_type]. rewrite Hct.
  split; reflexivity.
Qed.

(** X3.  A POST, whatever it carries and whatever the observers do, leaves
    the fields of the server as they were, makes no call on the event
    stream, and writes exactly one status line on its own response. *)
Theorem server_post_frame s req :
  state_of (Server.post req s) = s
  /\ stream_effects (trace_of (Server.post req s)) = []
  /\ length (filter is_status (trace_of (Server.post req s))) = 1.
Proof.
  split; [apply server_post_state|].
  rewrite server_post_trace. unfold rejected_post, accepted_post, reported.
  destruct (Server._sseResponse s); [|split; reflexivity].
  destruct (Server.unsupported (content_type req)).
  - destruct (defined (Server.onerror s)); split; reflexivity.
  - destruct (JSON_parse (Server.read_body req)) as [v|e].
    + rewrite server_handleMessage_trace. unfold reported.
      destruct (JSONRPCMessageSchema_parse v) as [m|e];
        [destruct (defined (Server.onmessage s))
        |destruct (defined (Server.onerror s))];
        split; reflexivity.
    + destruct (defined (Server.onerror s)); split; reflexivity.
Qed.

(** X4.  On an open server a sequence of [send] calls writes one
    [message] frame per call, in the order of the calls, each carrying the
    serialized message; nothing else happens and the state is unchanged. *)
Theorem server_sends_in_order s msgs :
  Server._sseResponse s = true ->
  Server.run (map Server.Send msgs) s
  = (s,
     map (fun m =>
            SseWrite ("event: message" ++ LF ++ "data: "
                      ++ JSON_stringify m ++ LF ++ LF)%string) msgs).
Proof.
  intros Hs. induction msgs as [|m msgs IH]; [reflexivity|].
  cbn [map Server.run Server.perform].
  rewrite (server_send_held s m Hs), IH. reflexivity.
Qed.

(** X5.  Whatever has happened to a server since it held no stream, a
    disconnect notification of the response releases the stream: after it
    [send] is refused with "Not connected" without a write, and a POST is
    answered 500. *)
Theorem server_disconnect_releases s0 acts m req :
  Server._sseResponse s0 = false ->
  let s := state_of (Server.res_emit_close (fst (Server.run acts s0))) in
  Server._sseResponse s = false
  /\ Server.send m s = (s, [], Throw Server.not_connected)
  /\ trace_of (Server.post req s)
     = [ResWriteHead 500; ResEnd "SSE connection not established"].
Proof.
  intros H0. cbv zeta.
  assert (Hinv : listener_registered (fst (Server.run acts s0))).
  { apply listener_registered_run. intros H. congruence. }
  set (s1 := fst (Server.run acts s0)) in *.
  assert (Hs : Server._sseResponse (state_of (Server.res_emit_close s1))
               = false).
  { destruct (server_emit_close_spec s1) as [-> _].
    destruct (closeListeners (Server.res s1)) eqn:Hn; [|reflexivity].
    destruct (Server._sseResponse s1) eqn:Hh; [|reflexivity].
    specialize (Hinv Hh). lia. }
  split; [exact Hs|split].
  - now apply server_send_not_held.
  - rewrite server_post_trace. now rewrite Hs.
Qed.

Lemma stream_effects_app (t1 t2 : list Effect) :
  stream_effects (t1 ++ t2) = stream_effects t1 ++ stream_effects t2.
Proof.
  apply filter_app.
Qed.

Lemma in_stream_effects x (t : list Effect) :
  In x t -> is_stream_effect x = true -> In x (stream_effects t).
Proof.
  intros Hin Hx. apply filter_In. now split.
Qed.

Lemma server_perform_fixed a s :
  Server.sessionId (state_of (Server.perform a s)) = Server.sessionId s
  /\ Server.endpoint_frame (state_of (Server.perform a s))
     = Server.endpoint_frame s.
Proof.
  rewrite server_perform_state.
  destruct a as [| |m|req|]; auto.
  - destruct (Server._sseResponse s); auto.
    destruct (res_writeHead (Server.res s) 200); auto.
  - unfold server_closed. destruct (Server._sseResponse s); auto.
  - destruct (closeListeners (Server.res s)); auto.
Qed.

(** What a call or event writes on the stream. *)
Lemma server_perform_writes a s chunk :
  In (SseWrite chunk) (trace_of (Server.perform a s)) ->
  chunk = Server.endpoint_frame s
  \/ exists m, chunk = Server.message_frame m.
Proof.
  destruct a as [| |m|req|]; cbn [Server.perform].
  - destruct (Server._sseResponse s) eqn:Hs.
    + rewrite (server_start_held s Hs). intros [].
    + destruct (res_writeHead (Server.res s) 200) as [[]|e] eqn:Hw.
      * rewrite (server_start_spec s Hs Hw).
        intros [H|[H|[H|[]]]]; try discriminate.
        left. congruence.
      * rewrite (server_start_failed s Hs Hw). intros [].
  - rewrite server_close_spec. unfold server_close_trace.
    destruct (Server._sseResponse s), (defined (Server.onclose s));
      cbn; intuition discriminate.
  - destruct (Server._sseResponse s) eqn:Hs.
    + rewrite (server_send_held s m Hs).
      intros [H|[]]. right. exists m. congruence.
    + rewrite (server_send_not_held s m Hs). intros [].
  - intros Hin.
    apply in_stream_effects in Hin; [|reflexivity].
    destruct (server_post_frame s req) as (_ & Hse & _).
    rewrite Hse in Hin. destruct Hin.
  - intros Hin.
    apply in_stream_effects in Hin; [|reflexivity].
    destruct (server_emit_close_spec s) as (_ & Hse).
    rewrite Hse in Hin. destruct Hin.
Qed.

(** X6.  The session identifier never changes: after any history of calls
    and events [sessionId] is what it was at construction, and everything
    written on the stream in that history is either the handshake frame
    that names this identifier (and the percent-encoded POST address) or
    the frame of a message. *)
Theorem server_session_is_fixed acts :
  forall s,
  Server.sessionId (fst (Server.run acts s)) = Server.sessionId s
  /\ (forall chunk,
      In (SseWrite chunk) (snd (Server.run acts s)) ->
      chunk = ("event: endpoint" ++ LF ++ "data: "
               ++ encodeURI (Server._endpoint s) ++ "?sessionId="
               ++ Server.sessionId s ++ LF ++ LF)%string
      \/ exists m, chunk = Server.message_frame m).
Proof.
  induction acts as [|a acts IH]; intros s.
  - cbn. split; [reflexivity|intros chunk []].
  - cbn [Server.run].
    destruct (server_perform_fixed a s) as [Hid Hframe].
    pose proof (server_perform_writes a s) as Hw.
    destruct (Server.perform a s) as [[s1 t1] c1].
    cbn [state_of trace_of fst snd] in *.
    destruct (IH s1) as [IHid IHw].
    destruct (Server.run acts s1) as [s2 t2]. cbn [fst snd] in *.
    split; [congruence|].
    intros chunk Hin. apply in_app_or in Hin. destruct Hin as [Hin|Hin].
    + exact (Hw chunk Hin).
    + destruct (IHw chunk Hin) as [H|H]; [left|now right].
      rewrite H. exact Hframe.
Qed.

(** On a server that does not hold its stream, a call or event either
    makes no call on the stream and leaves it unheld, or is the [start]
    that opens it. *)
Lemma server_unheld_step a s :
  Server._sseResponse s = false ->
  (stream_effects (trace_of (Server.perform a s)) = []
   /\ Server._sseResponse (state_of (Server.perform a s)) = false)
  \/ trace_of (Server.perform a s)
     = [SseWriteHead 200 Server.sse_headers;
        SseWrite (Server.endpoint_frame s); SseOnClose].
Proof.
  intros Hs. destruct a as [| |m|req|]; cbn [Server.perform].
  - destruct (res_writeHead (Server.res s) 200) as [[]|e] eqn:Hw.
    + right. now rewrite (server_start_spec s Hs Hw).
    + left. now rewrite (server_start_failed s Hs Hw).
  - left. rewrite server_close_spec. unfold server_close_trace.
    rewrite Hs. split; [|reflexivity].
    now destruct (defined (Server.onclose s)).
  - left. now rewrite (server_send_not_held s m Hs).
  - left. destruct (server_post_frame s req) as (-> & -> & _). now split.
  - left. destruct (server_emit_close_spec s) as (-> & ->).
    split; [reflexivity|].
    now destruct (closeListeners (Server.res s)).
Qed.

(** X7.  Nothing reaches the stream before the handshake: in every history
    of a server that starts without its stream, the calls on the event
    stream, if there are any, begin with the headers (status 200), the
    [endpoint] frame and the registration of the disconnect listener. *)
Theorem server_handshake_comes_first acts :
  forall s,
  Server._sseResponse s = false ->
  stream_effects (snd (Server.run acts s)) = []
  \/ exists rest,
       stream_effects (snd (Server.run acts s))
       = SseWriteHead 200 Server.sse_headers
         :: SseWrite (Server.endpoint_frame s) :: SseOnClose :: rest.
Proof.
  induction acts as [|a acts IH]; intros s Hs; [now left|].
  cbn [Server.run].
  destruct (server_perform_fixed a s) as [_ Hframe].
  destruct (server_unheld_step a s Hs) as [[Hnone Hs1]|Hstart];
    destruct (Server.perform a s) as [[s1 t1] c1];
    cbn [state_of trace_of fst snd] in *.
  - destruct (IH s1 Hs1) as [IHe|[rest IHe]];
      destruct (Server.run acts s1) as [s2 t2]; cbn [snd] in *;
      rewrite stream_effects_app, Hnone, IHe; cbn [app].
    + now left.
    + right. exists rest. now rewrite Hframe.
  - destruct (Server.run acts s1) as [s2 t2]. cbn [snd].
    right. exists (stream_effects t2).
    rewrite stream_effects_app, Hstart. reflexivity.
Qed.

Lemma server_perform_balance a s :
  length (filter is_stream_end (trace_of (Server.perform a s)))
    + held_count (state_of (Server.perform a s))
  <= length (filter is_stream_open (trace_of (Server.perform a s)))
     + held_count s.
Proof.
  unfold held_count.
  destruct a as [| |m|req|]; cbn [Server.perform].
  - destruct (Server._sseResponse s) eqn:Hs.
    + rewrite (server_start_held s Hs). cbn. now rewrite Hs.
    + destruct (res_writeHead (Server.res s) 200) as [[]|e] eqn:Hw.
      * rewrite (server_start_spec s Hs Hw). cbn. lia.
      * rewrite (server_start_failed s Hs Hw). cbn. now rewrite Hs.
  - rewrite server_close_spec. unfold server_close_trace.
    destruct (Server._sseResponse s), (defined (Server.onclose s));
      cbn; lia.
  - destruct (Server._sseResponse s) eqn:Hs.
    + rewrite (server_send_held s m Hs). cbn. now rewrite Hs.
    + rewrite (server_send_not_held s m Hs). cbn. now rewrite Hs.
  - destruct (server_post_frame s req) as (Hst & Hse & _).
    rewrite Hst.
    assert (Hend : filter is_stream_end (trace_of (Server.post req s)) = []).
    { destruct (filter is_stream_end (trace_of (Server.post req s)))
        as [|x t] eqn:Hf; [reflexivity|].
      assert (Hin : In x (filter is_stream_end
                            (trace_of (Server.post req s))))
        by (rewrite Hf; now left).
      apply filter_In in Hin. destruct Hin as [Hin Hx].
      destruct x; try discriminate.
      apply in_stream_effects in Hin; [|reflexivity].
      rewrite Hse in Hin. destruct Hin. }
    rewrite Hend. cbn. lia.
  - destruct (server_emit_close_spec s) as (Hst & Hse).
    assert (Hend : filter is_stream_end
                     (trace_of (Server.res_emit_close s)) = []).
    { destruct (filter is_stream_end (trace_of (Server.res_emit_close s)))
        as [|x t] eqn:Hf; [reflexivity|].
      assert (Hin : In x (filter is_stream_end
                            (trace_of (Server.res_emit_close s))))
        by (rewrite Hf; now left).
      apply filter_In in Hin. destruct Hin as [Hin Hx].
      destruct x; try discriminate.
      apply in_stream_effects in Hin; [|reflexivity].
      rewrite Hse in Hin. destruct Hin. }
    rewrite Hend, Hst.
    destruct (closeListeners (Server.res s)), (Server._sseResponse s);
      cbn; lia.
Qed.

Lemma server_run_balance acts :
  forall s,
  length (filter is_stream_end (snd (Server.run acts s)))
    + held_count (fst (Server.run acts s))
  <= length (filter is_stream_open (snd (Server.run acts s)))
     + held_count s.
Proof.
  induction acts as [|a acts IH]; intros s; [cbn; lia|].
  cbn [Server.run].
  pose proof (server_perform_balance a s) as H1.
  destruct (Server.perform a s) as [[s1 t1] c1].
  cbn [state_of trace_of fst snd] in H1.
  specialize (IH s1).
  destruct (Server.run acts s1) as [s2 t2]. cbn [fst snd] in *.
  rewrite !filter_app, !length_app. lia.
Qed.

(** X14.  The stream is released at most once per opening: in every
    history of a server that starts without its stream, [end()] is called
    on the response no more often than the headers were written, and never
    by a [close()] that finds the stream already released; while the stream
    is still held at the end, strictly less often. *)
Theorem server_stream_ended_at_most_once acts s :
  Server._sseResponse s = false ->
  length (filter is_stream_end (snd (Server.run acts s)))
    + held_count (fst (Server.run acts s))
  <= length (filter is_stream_open (snd (Server.run acts s)))
  /\ (forall s', Server._sseResponse s' = false ->
      filter is_stream_end (trace_of (Server.close s')) = []).
Proof.
  intros Hs. split.
  - pose proof (server_run_balance acts s) as H.
    unfold held_count at 2 in H. rewrite Hs in H. lia.
  - intros s' Hs'. rewrite server_close_spec. unfold server_close_trace.
    rewrite Hs'. now destruct (defined (Server.onclose s')).
Qed.

End ServerFurther.

(** ** Further properties of the client half *)

Section ClientFurther.

Context {R : Runtime}.

Implicit Types (c : Client.SseClient).

Lemma client_on_es_error_spec c code message :
  Client.on_es_error code message c
  = (Client.settle (Client.Rejected (SseError code message)) c,
     [Reject (SseError code message)]
       ++ reported (Client.onerror c) (CbError (SseError code message)),
     observer_completion (Client.onerror c) (SseError code message)).
Proof.
  unfold Client.on_es_error, Client.reject, reported, observer_completion.
  js_unfold.
  destruct (Client.onerror c) as [f|]; reflexivity.
Qed.

Lemma client_start_endpoint c :
  Client._endpoint (state_of (Client.start c)) = Client._endpoint c.
Proof.
  unfold Client.start. js_unfold.
  now destruct (defined (Client._eventSource c)).
Qed.

(** Only the [endpoint] event writes the reply address. *)
Lemma client_endpoint_untouched a c :
  is_handshake a = false ->
  Client._endpoint (state_of (Client.perform a c)) = Client._endpoint c.
Proof.
  intros Ha.
  destruct a as [| |m|code message|data|data]; try discriminate;
    cbn [Client.perform]; rewrite ?client_listening.
  - apply client_start_endpoint.
  - now rewrite client_close_spec.
  - now rewrite client_send_state.
  - destruct (defined (Client._eventSource c)); [|reflexivity].
    rewrite client_on_es_error_spec. cbn [state_of fst].
    now destruct (settle_fields (Client.Rejected (SseError code message)) c)
      as (_ & _ & -> & _).
  - destruct (defined (Client._eventSource c)); [|reflexivity].
    now rewrite client_on_es_message_state.
Qed.

(** X8.  A client cannot send before its handshake: as long as no
    [endpoint] event has been delivered, whatever else has happened
    ([start], [close], stream errors, message events, earlier [send]s),
    [send] is refused with "Not connected" and no request is made. *)
Theorem client_no_send_before_handshake acts :
  forall c m,
  Client._endpoint c = None ->
  forallb (fun a => negb (is_handshake a)) acts = true ->
  let c1 := fst (Client.run acts c) in
  Client.send m c1 = (c1, [], Throw Client.not_connected).
Proof.
  induction acts as [|a acts IH]; intros c m Hc Hacts; cbv zeta.
  - now apply client_send_no_endpoint.
  - cbn [forallb] in Hacts. apply andb_true_iff in Hacts.
    destruct Hacts as [Ha Hacts]. apply negb_true_iff in Ha.
    cbn [Client.run].
    pose proof (client_endpoint_untouched a c Ha) as H1.
    destruct (Client.perform a c) as [[c1 t1] r1].
    cbn [state_of fst] in H1.
    assert (Hc1 : Client._endpoint c1 = None) by congruence.
    specialize (IH c1 m Hc1 Hacts). cbv zeta in IH.
    now destruct (Client.run acts c1) as [c2 t2].
Qed.

(** X9.  The handshake and the first [send] compose: when the [endpoint]
    event delivers an address that resolves, against the connection URL,
    to the connection's origin, the pending [start()] is resolved and the
    resolved address becomes the reply address; a [send] that follows POSTs
    the serialized message to that address with the client's cancellation
    signal, and succeeds without calling any observer when the response is
    a success. *)
Theorem client_handshake_then_send c data endpoint m response :
  Client.started c = Some Client.Pending ->
  URL_new data (Client._url c) = Normal endpoint ->
  origin endpoint = origin (Client._url c) ->
  let c1 := state_of (Client.on_endpoint data c) in
  let init := Client.post_init c1 m in
  Client.on_endpoint data c = (c1, [Resolve], Normal tt)
  /\ Client.started c1 = Some Client.Resolved
  /\ Client._endpoint c1 = Some endpoint
  /\ (method init = "POST" /\ body init = JSON_stringify m
      /\ signal init = Client._abortController c)
  /\ (fetch endpoint init = Normal response ->
      ok response = true ->
      Client.send m c1 = (c1, [Fetch endpoint init], Normal tt)).
Proof.
  intros Hp Hnew Ho. cbv zeta.
  rewrite client_on_endpoint_spec, Hnew. cbv zeta.
  apply String.eqb_eq in Ho. rewrite Ho. cbn [state_of fst].
  set (c1 := Client.settle Client.Resolved
               (Client.set_endpoint (Some endpoint) c)).
  assert (Hst : Client.started c1 = Some Client.Resolved).
  { unfold c1, Client.settle. cbn. now rewrite Hp. }
  destruct (settle_fields Client.Resolved
              (Client.set_endpoint (Some endpoint) c))
    as (_ & Fac & Fep & _).
  fold c1 in Fac, Fep. cbn in Fac, Fep.
  repeat split; auto.
  intros Hfetch Hok.
  rewrite (client_send_endpoint c1 m Fep). cbv zeta.
  now rewrite Hfetch, Hok.
Qed.


Lemma client_closed_onclose c :
  Client.onclose (closed c) = Client.onclose c.
Proof. reflexivity. Qed.

(** X11.  [close()] of the client is not idempotent: every call signals
    [onclose] again, so [n] calls in a row call the observer [n] times. *)
Theorem client_close_repeats n :
  forall c f,
  Client.onclose c = Some f ->
  count_onclose (snd (Client.run (repeat Client.Close n) c)) = n.
Proof.
  induction n as [|n IH]; intros c f Hf; [reflexivity|].
  cbn [repeat Client.run Client.perform].
  rewrite client_close_spec.
  assert (Hf1 : Client.onclose (closed c) = Some f) by exact Hf.
  specialize (IH (closed c) f Hf1).
  destruct (Client.run (repeat Client.Close n) (closed c)) as [c2 t2].
  cbn [snd] in *. rewrite count_onclose_app, IH.
  unfold close_trace. rewrite Hf. cbn [defined].
  now destruct (defined (Client._abortController c)),
    (defined (Client._eventSource c)).
Qed.

(** X12.  A pushed message event is handled locally: it never changes the
    client, and its whole effect is at most one call of an observer - no
    request, no settlement of [start()], no closing of the stream.  A
    payload that does not parse or validate is not thrown on: the listener
    completes as [onerror] does. *)
Theorem client_message_event_is_local c data :
  state_of (Client.on_es_message data c) = c
  /\ length (trace_of (Client.on_es_message data c)) <= 1
  /\ forallb is_observer_call (trace_of (Client.on_es_message data c)) = true
  /\ (forall e,
      (JSON_parse data = Throw e
       \/ exists v, JSON_parse data = Normal v
                    /\ JSONRPCMessageSchema_parse v = Throw e) ->
      completion_of (Client.on_es_message data c)
      = observer_completion (Client.onerror c) e).
Proof.
  split; [apply client_on_es_message_state|].
  rewrite client_on_es_message_trace.
  assert (Hrep : forall X (cb : option (X -> Completion unit)) x,
             is_observer_call x = true ->
             length (reported cb x) <= 1
             /\ forallb is_observer_call (reported cb x) = true).
  { intros X cb x Hx. unfold reported.
    destruct (defined cb); cbn; [rewrite Hx|]; auto. }
  split; [|split].
  - destruct (JSON_parse data) as [v|e];
      [destruct (JSONRPCMessageSchema_parse v)|]; now apply Hrep.
  - destruct (JSON_parse data) as [v|e];
      [destruct (JSONRPCMessageSchema_parse v)|]; now apply Hrep.
  - intros e He. unfold Client.on_es_message, observer_completion.
    js_unfold.
    destruct He as [Hp|(v & Hp & Hv)]; rewrite Hp; [|rewrite Hv];
      (destruct (Client.onerror c) as [f|];
       [destruct (f e) as [[]|]|]; reflexivity).
Qed.

(** X13.  An error event of the stream before the handshake rejects the
    pending [start()] with an [SseError] whose message is "SSE error: "
    followed by the event's message, and hands the same error to
    [onerror]; the stream is not closed and nothing is aborted.  If the
    stream later delivers a same-origin [endpoint] event the reply address
    is stored all the same, while [start()] stays rejected. *)
Theorem client_stream_error_before_handshake
    c code message data endpoint :
  Client.started c = Some Client.Pending ->
  let error := SseError code message in
  let c1 := state_of (Client.on_es_error code message c) in
  (trace_of (Client.on_es_error code message c)
   = [Reject error] ++ reported (Client.onerror c) (CbError error)
   /\ error_message error = ("SSE error: " ++ show_undefined message)%string
   /\ Client.started c1 = Some (Client.Rejected error)
   /\ Client._eventSource c1 = Client._eventSource c
   /\ Client._abortController c1 = Client._abortController c
   /\ Client._endpoint c1 = Client._endpoint c)
  /\ (URL_new data (Client._url c) = Normal endpoint ->
      origin endpoint = origin (Client._url c) ->
      let c2 := state_of (Client.on_endpoint data c1) in
      Client._endpoint c2 = Some endpoint
      /\ Client.started c2 = Some (Client.Rejected error)).
Proof.
  intros Hp. cbv zeta.
  rewrite client_on_es_error_spec. cbn [state_of trace_of fst snd].
  destruct (settle_fields (Client.Rejected (SseError code message)) c)
    as (Fes & Fac & Fep & Furl & _).
  assert (Hst : Client.started
                  (Client.settle (Client.Rejected (SseError code message)) c)
                = Some (Client.Rejected (SseError code message))).
  { unfold Client.settle. rewrite Hp. reflexivity. }
  split; [repeat split; auto|].
  intros Hnew Ho.
  rewrite client_on_endpoint_spec, Furl, Hnew. cbv zeta.
  apply String.eqb_eq in Ho. rewrite Ho. cbn [state_of fst].
  set (c1 := Client.settle (Client.Rejected (SseError code message)) c)
    in *.
  destruct (settle_fields Client.Resolved
              (Client.set_endpoint (Some endpoint) c1))
    as (_ & _ & Fep2 & _).
  split; [now rewrite Fep2|].
  unfold Client.settle at 1. cbn. now rewrite Hst.
Qed.

Lemma cancelled_perform a c :
  cancelled c -> cancelled (state_of (Client.perform a c)).
Proof.
  intros [Hes Hac]. split; [now apply client_eventSource_stays|].
  destruct a as [| |m|code message|data|data]; cbn [Client.perform];
    rewrite ?client_listening, ?Hes.
  - now rewrite (client_start_again c Hes).
  - rewrite client_close_spec. cbn. now rewrite Hac.
  - now rewrite client_send_state.
  - rewrite client_on_es_error_spec. cbn [state_of fst].
    now destruct (settle_fields (Client.Rejected (SseError code message)) c)
      as (_ & -> & _).
  - rewrite client_on_endpoint_spec.
    assert (Hfail : forall error s1,
               Client._abortController s1 = Some true ->
               Client._abortController
                 (state_of (handshake_failed error s1)) = Some true).
    { intros error s1 H1. unfold handshake_failed.
      destruct (settle_fields (Client.Rejected error) s1) as (_ & Fac & _).
      destruct (Client.onerror s1) as [f|]; [destruct (f error)|];
        cbn; now rewrite Fac, H1. }
    destruct (URL_new data (Client._url c)) as [endpoint|error];
      [cbv zeta;
       destruct (String.eqb (origin endpoint) (origin (Client._url c)))|].
    + cbn [state_of fst].
      now destruct (settle_fields Client.Resolved
                      (Client.set_endpoint (Some endpoint) c))
        as (_ & -> & _).
    + now apply Hfail.
    + now apply Hfail.
  - now rewrite client_on_es_message_state.
Qed.

Lemma cancelled_run acts :
  forall c, cancelled c -> cancelled (fst (Client.run acts c)).
Proof.
  induction acts as [|a acts IH]; intros c Hc; [exact Hc|].
  cbn [Client.run].
  pose proof (cancelled_perform a Hc) as H1.
  destruct (Client.perform a c) as [[c1 t1] r1]. cbn in H1.
  specialize (IH c1 H1).
  now destruct (Client.run acts c1).
Qed.

(** X15.  Cancellation is final: once a started client has been closed,
    [close()] has aborted its one cancellation signal, no later call or
    event replaces it ([start()] is refused), and every request a later
    [send] makes carries the aborted signal. *)
Theorem client_close_cancels_for_good c acts m :
  defined (Client._eventSource c) = true ->
  defined (Client._abortController c) = true ->
  let c1 := fst (Client.run (Client.Close :: acts) c) in
  Client._abortController c1 = Some true
  /\ signal (Client.post_init c1 m) = Some true
  /\ Client.start c1 = (c1, [], Throw Client.already_started)
  /\ [Abort; EsClose]
     = firstn 2 (snd (Client.run (Client.Close :: acts) c)).
Proof.
  intros Hes Hac. cbv zeta.
  cbn [Client.run Client.perform]. rewrite client_close_spec.
  assert (Hc : cancelled (closed c)).
  { split; cbn.
    - now destruct (Client._eventSource c).
    - now destruct (Client._abortController c). }
  pose proof (cancelled_run acts Hc) as [H1 H2].
  destruct (Client.run acts (closed c)) as [c2 t2]. cbn [fst snd] in *.
  repeat split; auto.
  - now apply client_start_again.
  - unfold close_trace. rewrite Hes, Hac. reflexivity.
Qed.


End ClientFurther.

(** ** The further properties on the concrete runtime *)

Lemma server_post_without_stream_witness :
  Server.post (Sample.json_post (Sample.stringify Sample.ping)) Sample.server
  = (Sample.server,
     [ResWriteHead 500; ResEnd "SSE connection not established"],
     Throw (MkError "SSE connection not established")).
Proof.
  exact (proj1 (@server_post_without_stream Sample.runtime Sample.server
                  (Sample.json_post (Sample.stringify Sample.ping)))
           eq_refl).
Defined.

Lemma server_post_unsupported_content_type_witness :
  trace_of (Server.post {| content_type := Some "text/plain";
                           chunks := [Sample.stringify Sample.ping] |}
              Sample.open_server)
  = [ResWriteHead 400;
     ResEnd "Invalid message: Error: Unsupported content-type: text/plain";
     CbError (MkError "Unsupported content-type: text/plain")].
Proof.
  exact (proj1 (@server_post_unsupported_content_type Sample.runtime
                  Sample.open_server (Some "text/plain")
                  [Sample.stringify Sample.ping] []
                  eq_refl eq_refl)).
Defined.

Lemma server_sends_in_order_witness :
  snd (Server.run [Server.Send Sample.ping_message;
                   Server.Send Sample.pong_message] Sample.open_server)
  = [SseWrite (Server.message_frame Sample.ping_message);
     SseWrite (Server.message_frame Sample.pong_message)].
Proof.
  exact (f_equal snd
           (@server_sends_in_order Sample.runtime Sample.open_server
              [Sample.ping_message; Sample.pong_message] eq_refl)).
Defined.

Lemma server_disconnect_releases_witness :
  let s := state_of (Server.res_emit_close
                       (fst (Server.run [Server.Start] Sample.server))) in
  Server.send Sample.ping_message s = (s, [], Throw Server.not_connected).
Proof.
  exact (proj1 (proj2 (@server_disconnect_releases Sample.runtime
                         Sample.server [Server.Start] Sample.ping_message
                         (Sample.json_post (Sample.stringify Sample.ping))
                         eq_refl))).
Defined.

Lemma server_session_is_fixed_witness :
  Server.sessionId
    (fst (Server.run [Server.Start; Server.Send Sample.ping_message;
                      Server.Close] Sample.server))
  = "session-1"
  /\ (Server.message_frame Sample.ping_message
      = Server.endpoint_frame Sample.server
      \/ exists m : Sample.Message,
           Server.message_frame Sample.ping_message
           = Server.message_frame (R := Sample.runtime) m).
Proof.
  destruct (@server_session_is_fixed Sample.runtime
              [Server.Start; Server.Send Sample.ping_message; Server.Close]
              Sample.server) as [Hid Hw].
  split; [exact Hid|].
  apply (Hw (Server.message_frame Sample.ping_message)).
  right. right. right. left. reflexivity.
Defined.

Lemma server_handshake_comes_first_witness :
  stream_effects
    (snd (Server.run [Server.Send Sample.ping_message; Server.Start;
                      Server.Send Sample.ping_message] Sample.server)) = []
  \/ exists rest,
       stream_effects
         (snd (Server.run [Server.Send Sample.ping_message; Server.Start;
                           Server.Send Sample.ping_message] Sample.server))
       = SseWriteHead 200 Server.sse_headers
         :: SseWrite (Server.endpoint_frame Sample.server)
         :: SseOnClose :: rest.
Proof.
  exact (@server_handshake_comes_first Sample.runtime
           [Server.Send Sample.ping_message; Server.Start;
            Server.Send Sample.ping_message] Sample.server eq_refl).
Defined.

Lemma server_stream_ended_at_most_once_witness :
  length (filter is_stream_end
            (snd (Server.run [Server.Start; Server.Close; Server.Close]
                    Sample.server)))
    + held_count (fst (Server.run [Server.Start; Server.Close; Server.Close]
                         Sample.server))
  <= length (filter is_stream_open
               (snd (Server.run [Server.Start; Server.Close; Server.Close]
                       Sample.server)))
  /\ filter is_stream_end (trace_of (Server.close Sample.server)) = [].
Proof.
  destruct (@server_stream_ended_at_most_once Sample.runtime
              [Server.Start; Server.Close; Server.Close] Sample.server
              eq_refl) as [H1 H2].
  exact (conj H1 (H2 Sample.server eq_refl)).
Defined.

Lemma client_no_send_before_handshake_witness :
  let c1 := fst (Client.run
                   [Client.Start;
                    Client.EsMessage (Sample.stringify Sample.ping);
                    Client.EsError None (Some "reset"); Client.Close]
                   Sample.client) in
  Client.send Sample.ping_message c1
  = (c1, [], Throw Client.not_connected).
Proof.
  exact (@client_no_send_before_handshake Sample.runtime
           [Client.Start; Client.EsMessage (Sample.stringify Sample.ping);
            Client.EsError None (Some "reset"); Client.Close]
           Sample.client Sample.ping_message eq_refl eq_refl).
Defined.

Lemma client_handshake_then_send_witness :
  Client.on_endpoint "/message?sessionId=session-1" Sample.started_client
  = (Sample.connected_client, [Resolve], Normal tt)
  /\ Client.send Sample.ping_message Sample.connected_client
     = (Sample.connected_client,
        [Fetch Sample.reply_address
           (Client.post_init Sample.connected_client Sample.ping_message)],
        Normal tt).
Proof.
  destruct (@client_handshake_then_send Sample.runtime
              Sample.started_client "/message?sessionId=session-1"
              Sample.reply_address Sample.ping_message
              {| ok := true; status := 202; text := Some "Accepted" |}
              eq_refl eq_refl eq_refl)
    as (H1 & _ & _ & _ & H5).
  exact (conj H1 (H5 eq_refl eq_refl)).
Defined.


Lemma client_close_repeats_witness :
  count_onclose
    (snd (Client.run [Client.Close; Client.Close; Client.Close]
            Sample.client)) = 3.
Proof.
  exact (@client_close_repeats Sample.runtime 3 Sample.client
           (fun _ => Normal tt) eq_refl).
Defined.

Lemma client_message_event_is_local_witness :
  completion_of (Client.on_es_message Sample.not_json Sample.started_client)
  = Normal tt.
Proof.
  destruct (@client_message_event_is_local Sample.runtime
              Sample.started_client Sample.not_json)
    as (_ & _ & _ & H).
  exact (H (Foreign "SyntaxError" "Unexpected token") (or_introl eq_refl)).
Defined.

Lemma client_stream_error_before_handshake_witness :
  let error := SseError (Some 503%Z) (Some "Service Unavailable") in
  let c1 := state_of (Client.on_es_error (Some 503%Z)
                        (Some "Service Unavailable")
                        Sample.started_client) in
  let c2 := state_of (Client.on_endpoint "/message?sessionId=session-1"
                        c1) in
  error_message error = "SSE error: Service Unavailable"
  /\ Client._endpoint c2 = Some Sample.reply_address
  /\ Client.started c2 = Some (Client.Rejected error).
Proof.
  cbv zeta.
  destruct (@client_stream_error_before_handshake Sample.runtime
              Sample.started_client (Some 503%Z)
              (Some "Service Unavailable")
              "/message?sessionId=session-1" Sample.reply_address
              eq_refl)
    as ((_ & H2 & _) & H).
  exact (conj H2 (H eq_refl eq_refl)).
Defined.

Lemma client_close_cancels_for_good_witness :
  let c1 := fst (Client.run
                   [Client.Close; Client.Start;
                    Client.EsEndpoint "/message?sessionId=session-1"]
                   Sample.started_client) in
  signal (Client.post_init c1 Sample.ping_message) = Some true.
Proof.
  exact (proj1 (proj2 (@client_close_cancels_for_good Sample.runtime
                         Sample.started_client
                         [Client.Start;
                          Client.EsEndpoint "/message?sessionId=session-1"]
                         Sample.ping_message eq_refl eq_refl))).
Defined.

